(** * Heimursaga mobile: waypoint synchronisation and view-state reconciliation

    A shallow embedding of the map/list logic of the explore screen
    ([src/screens/ExploreScreen.tsx]), the journal screen ([JournalScreen])
    and the bookmarks screen ([BookmarksScreen]): coordinate normalisation,
    the keyed waypoint collection, the viewport filters, journey mode and
    the bottom drawer.  React state is a record, a handler is a function
    from state to state, and a pending promise is a task kept in the state
    together with the values its closure captured. *)

From Stdlib Require Import ZArith List String Ascii Bool Lia DecimalString.
From Stdlib Require Import Sorted Permutation.
Import ListNotations.
Local Open Scope Z_scope.

(** ** JavaScript values used by the screens *)

Module JS.

(** A number is a finite decimal [mant * 10^-scale]; coordinates and
    counters of the API are of this form.  [NaN], the infinities and
    magnitudes that print with an exponent are not represented. *)
Record num : Type := Num { mant : Z; scale : nat }.

Definition pow10 (n : nat) : Z := 10 ^ Z.of_nat n.

Definition ofZ (z : Z) : num := Num z 0.
Definition zero : num := ofZ 0.

(** The order of the values, and the tests [a <= b] and [a >= b]. *)
Definition le (a b : num) : Prop :=
  mant a * pow10 (scale b) <= mant b * pow10 (scale a).
Definition leb (a b : num) : bool :=
  mant a * pow10 (scale b) <=? mant b * pow10 (scale a).
Definition geb (a b : num) : bool := leb b a.

(** [a === 0]; a number is truthy when it is not zero. *)
Definition isZero (a : num) : bool := mant a =? 0.
Definition truthy (a : num) : bool := negb (isZero a).

Definition max (a b : num) : num := if leb a b then b else a.
Definition min (a b : num) : num := if leb a b then a else b.

(** [Math.round]: the nearest integer, halves going up. *)
Definition Math_round (a : num) : num :=
  let p := pow10 (scale a) in
  ofZ ((2 * mant a + p) / (2 * p)).

(** Number to string, as a template literal renders it: the integer
    part, then the fraction without trailing zeros. *)
Definition digit (d : Z) : ascii := ascii_of_nat (48 + Z.to_nat d).

Fixpoint fracDigits (n : nat) (r : Z) : list ascii :=
  match n with
  | O => []
  | S k => fracDigits k (r / 10) ++ [digit (r mod 10)]
  end.

Fixpoint dropZeros (l : list ascii) : list ascii :=
  match l with
  | c :: t => if Ascii.eqb c "0" then dropZeros t else l
  | [] => []
  end.

Definition toString (a : num) : string :=
  let m := Z.abs (mant a) in
  let p := pow10 (scale a) in
  let ip := NilZero.string_of_uint (N.to_uint (Z.to_N (m / p))) in
  let fp := rev (dropZeros (rev (fracDigits (scale a) (m mod p)))) in
  let body :=
    match fp with
    | [] => ip
    | _ => String.append ip (String "." (string_of_list_ascii fp))
    end in
  if mant a <? 0 then String "-" body else body.

(** A field that may be missing: [None] is [undefined] or [null]. *)
Definition truthyNum (x : option num) : bool :=
  match x with Some n => truthy n | None => false end.

Definition truthyStr (x : option string) : bool :=
  match x with Some s => negb (String.eqb s EmptyString) | None => false end.

(** [a || b] on optional numbers and on optional strings. *)
Definition orNum (a b : option num) : option num :=
  if truthyNum a then a else b.

Definition orStr (a b : option string) : option string :=
  if truthyStr a then a else b.

(** [a || 0]. *)
Definition orZero (a : option num) : num :=
  match a with
  | Some n => if truthy n then n else zero
  | None => zero
  end.

(** Strict order, and the tests [a < b] and [a > b]. *)
Definition lt (a b : num) : Prop :=
  mant a * pow10 (scale b) < mant b * pow10 (scale a).
Definition ltb (a b : num) : bool :=
  mant a * pow10 (scale b) <? mant b * pow10 (scale a).
Definition gtb (a b : num) : bool := ltb b a.

(** [Math.abs], [a + b], [a - b], [a * b] and [a / 5]. *)
Definition Math_abs (a : num) : num := Num (Z.abs (mant a)) (scale a).
Definition add (a b : num) : num :=
  Num (mant a * pow10 (scale b) + mant b * pow10 (scale a))
      (scale a + scale b).
Definition sub (a b : num) : num :=
  Num (mant a * pow10 (scale b) - mant b * pow10 (scale a))
      (scale a + scale b).
Definition mul (a b : num) : num :=
  Num (mant a * mant b) (scale a + scale b).
Definition divBy5 (a : num) : num := Num (2 * mant a) (S (scale a)).

End JS.

(** ** A [Map] with string keys

    [Map.prototype.set] overwrites the value of a key that is present and
    leaves it at its place; a new key goes to the end.  [values] iterates
    in that order. *)

Module JSMap.
Section Ops.
Context {V : Type}.

Definition t : Type := list (string * V).

Definition empty : t := [].

Fixpoint set (k : string) (v : V) (m : t) : t :=
  match m with
  | [] => [(k, v)]
  | (k', v') :: rest =>
      if String.eqb k k' then (k, v) :: rest else (k', v') :: set k v rest
  end.

Fixpoint get (k : string) (m : t) : option V :=
  match m with
  | [] => None
  | (k', v') :: rest => if String.eqb k k' then Some v' else get k rest
  end.

Definition has (k : string) (m : t) : bool :=
  match get k m with Some _ => true | None => false end.

Definition keys (m : t) : list string := map fst m.
Definition values (m : t) : list V := map snd m.
Definition size (m : t) : nat := List.length m.

End Ops.
Arguments t : clear implicits.
End JSMap.

(** ** A [Set] of strings

    [Set.prototype.add] keeps the first occurrence of a value. *)

Module JSSet.

Definition t : Type := list string.

Definition empty : t := [].

Definition has (k : string) (s : t) : bool := existsb (String.eqb k) s.

Definition add (k : string) (s : t) : t :=
  if has k s then s else s ++ [k].

Definition size (s : t) : nat := List.length s.

End JSSet.

(** ** Records of the API *)

(** The coordinate fields of an object, under all their aliases. *)
Record Coords : Type := mkCoords {
  c_lat : option JS.num;
  c_latitude : option JS.num;
  c_lon : option JS.num;
  c_lng : option JS.num;
  c_longitude : option JS.num
}.

Definition noCoords : Coords := mkCoords None None None None None.

(** A post as the API returns it.  A date is a date string, given by the
    time it parses to; [None] is a missing field. *)
Record Post : Type := mkPost {
  p_id : option string;
  p_coords : Coords;
  p_waypoint : option Coords;
  p_location : option Coords;
  p_coordinates : option Coords;
  p_date : option Z;
  p_createdAt : option Z;
  p_likesCount : Z;
  p_bookmarked : bool
}.

(** A waypoint in the shape the map and the lists use. *)
Record Waypoint : Type := mkWaypoint {
  w_id : option string;
  w_lat : JS.num;
  w_lon : JS.num;
  w_date : option Z;
  w_post : option Post
}.

(** [waypoint.post?.id] *)
Definition postId (w : Waypoint) : option string :=
  match w_post w with Some p => p_id p | None => None end.

(** ** Stable keys and the merged collection *)

(** [`${waypoint.lat}_${waypoint.lon}`] *)
Definition coordKey (w : Waypoint) : string :=
  String.append (JS.toString (w_lat w)) (String "_" (JS.toString (w_lon w))).

(** [waypoint.post?.id || `${waypoint.lat}_${waypoint.lon}`] *)
Definition stableKey (w : Waypoint) : string :=
  match postId w with
  | Some id => if JS.truthyStr (Some id) then id else coordKey w
  | None => coordKey w
  end.

(** The body of the state updater of both merge effects:
    [updated = new Map(prev); page.forEach(w => updated.set(stableKey, w))]. *)
Definition mergeWith {V : Type} (key : V -> string)
    (prev : JSMap.t V) (page : list V) : JSMap.t V :=
  fold_left (fun updated w => JSMap.set (key w) w updated) page prev.

Definition merge (prev : JSMap.t Waypoint) (page : list Waypoint)
  : JSMap.t Waypoint :=
  mergeWith stableKey prev page.

(** ** Coordinate normalisation *)

(** [o.lat || o.latitude] and [o.lon || o.lng || o.longitude]. *)
Definition latOf (c : Coords) : option JS.num :=
  JS.orNum (c_lat c) (c_latitude c).

Definition lonOf (c : Coords) : option JS.num :=
  JS.orNum (JS.orNum (c_lon c) (c_lng c)) (c_longitude c).

(** One fallback of the normalisers:
    [if (!lat && !lon && post.sub) { lat = sub.lat || ...; lon = ... }]. *)
Definition fallback (cur : option JS.num * option JS.num)
    (sub : option Coords) : option JS.num * option JS.num :=
  if negb (JS.truthyNum (fst cur)) && negb (JS.truthyNum (snd cur)) then
    match sub with
    | Some c => (latOf c, lonOf c)
    | None => cur
    end
  else cur.

(** The pair of coordinates after the final [lat || 0], [lon || 0]. *)
Definition settled (cur : option JS.num * option JS.num)
  : JS.num * JS.num :=
  (JS.orZero (fst cur), JS.orZero (snd cur)).

(** [{ ...post, bookmarked: true }] *)
Definition markBookmarked (post : Post) : Post :=
  {| p_id := p_id post;
     p_coords := p_coords post;
     p_waypoint := p_waypoint post;
     p_location := p_location post;
     p_coordinates := p_coordinates post;
     p_date := p_date post;
     p_createdAt := p_createdAt post;
     p_likesCount := p_likesCount post;
     p_bookmarked := true |}.

(** [a || b] on two dates, as in [post.date || post.createdAt]. *)
Definition orDate (a b : option Z) : option Z :=
  match a with Some _ => a | None => b end.

Module BookmarksScreen.

(** The coordinates found by [waypointData] before the final [|| 0]. *)
Definition foundCoords (post : Post) : option JS.num * option JS.num :=
  let cur := (latOf (p_coords post), lonOf (p_coords post)) in
  let cur := fallback cur (p_waypoint post) in
  let cur := fallback cur (p_location post) in
  fallback cur (p_coordinates post).

(** The callback of [bookmarks.map] in [waypointData]. *)
Definition toWaypoint (post : Post) : Waypoint :=
  let cur := foundCoords post in
  {| w_id := None;
     w_lat := JS.orZero (fst cur);
     w_lon := JS.orZero (snd cur);
     w_date := orDate (p_date post) (p_createdAt post);
     w_post := Some (markBookmarked post) |}.

Definition waypointData (bookmarks : option (list Post)) : list Waypoint :=
  match bookmarks with
  | None => []
  | Some l => map toWaypoint l
  end.

End BookmarksScreen.

(** ** Viewport bounds *)

Record LatLon : Type := mkLatLon { ll_lat : JS.num; ll_lon : JS.num }.

(** The result of [getCurrentBounds]: [{ ne: {lat, lon}, sw: {lat, lon} }]. *)
Record Bounds : Type := mkBounds { b_ne : LatLon; b_sw : LatLon }.

Module MapView.

(** [getCurrentBounds]: [visible] is what [getVisibleBounds] gave, as
    [((swLon, swLat), (neLon, neLat))]; [None] when the map is not ready
    or the call threw. *)
Definition getCurrentBounds
    (visible : option ((JS.num * JS.num) * (JS.num * JS.num)))
  : option Bounds :=
  match visible with
  | None => None
  | Some ((swLon, swLat), (neLon, neLat)) =>
      Some {| b_ne := mkLatLon (JS.max swLat neLat) (JS.max swLon neLon);
              b_sw := mkLatLon (JS.min swLat neLat) (JS.min swLon neLon) |}
  end.

End MapView.

(** The record is inside the rectangle, sides included: the four
    comparisons of both filters. *)
Definition inViewport (south north west east : JS.num) (w : Waypoint) : bool :=
  JS.geb (w_lat w) south && JS.leb (w_lat w) north &&
  JS.geb (w_lon w) west && JS.leb (w_lon w) east.

(** The inclusion rule in the words of the specification. *)
Definition spec_inViewport (south north west east : JS.num) (w : Waypoint)
  : Prop :=
  (JS.le south (w_lat w) /\ JS.le (w_lat w) north) /\
  (JS.le west (w_lon w) /\ JS.le (w_lon w) east).

(** ** The network

    A fetch either resolves with a value or rejects ([None]). *)

(** A waypoint of a trip, as [getTripById] returns it. *)
Record RawWaypoint : Type := mkRawWaypoint {
  rw_id : option string;
  rw_coords : Coords;
  rw_location : option Coords;
  rw_date : option Z;
  rw_post : option Post
}.

Record Trip : Type := mkTrip {
  t_id : option string;
  t_waypoints : option (list RawWaypoint)
}.

Record Network : Type := mkNetwork {
  getPostById : string -> option Post;
  getTripById : option string -> option Trip
}.

(** What [fullEntryData] holds: a fetched entry, or the waypoint that was
    already on screen. *)
Inductive Detail : Type :=
| FullEntry (fullEntry : Post)
| Preview (waypoint : Waypoint).

(** Removing the [n]-th element of a list. *)
Fixpoint removeAt {A : Type} (n : nat) (l : list A) : list A :=
  match l, n with
  | [], _ => []
  | _ :: t, O => t
  | x :: t, S k => x :: removeAt k t
  end.

(** Handlers are chains of state setters: [s |> f |> g]. *)
Notation "x |> f" := (f x) (at level 45, left associativity, only parsing).

(** ** The explore screen *)

Module ExploreScreen.

(** The values the [mapBounds] state takes: [null], the array
    [[north, south, east, west]] that [updateMapBounds] stores, or the
    object [{ ne: [lon, lat], sw: [lon, lat] }] that the filter reads. *)
Inductive MapBounds : Type :=
| BoundsNull
| BoundsArray (north south east west : JS.num)
| BoundsCorners (ne sw : option (JS.num * JS.num)).

(** The state change of [updateMapBounds], given what
    [getCurrentBounds] returned. *)
Definition updateMapBounds (bounds : option Bounds) (mapBounds : MapBounds)
  : MapBounds :=
  match bounds with
  | Some b =>
      BoundsArray (ll_lat (b_ne b)) (ll_lat (b_sw b))
                  (ll_lon (b_ne b)) (ll_lon (b_sw b))
  | None => mapBounds
  end.

Definition visibleWaypoints (allWaypoints : JSMap.t Waypoint)
    (mapBounds : MapBounds) : list Waypoint :=
  match mapBounds with
  | BoundsCorners (Some ne) (Some sw) =>
      let north := snd ne in
      let south := snd sw in
      let east := fst ne in
      let west := fst sw in
      filter (inViewport south north west east) (JSMap.values allWaypoints)
  | _ => JSMap.values allWaypoints
  end.

(** The merge effect, run when [recentWaypoints] changes. *)
Definition mergeEffect (recentWaypoints : option (list Waypoint))
    (allWaypoints : JSMap.t Waypoint) : JSMap.t Waypoint :=
  match recentWaypoints with
  | Some page => merge allWaypoints page
  | None => allWaypoints
  end.

(** Work in flight, with what its callback captured. *)
Inductive Task : Type :=
| CenteringTimeout
| ListFetch (waypoint : Waypoint) (id : string)
| ExpandSpring (selected : Waypoint)
| ExpandFetch (selected : Waypoint) (id : string)
| CloseAnimation.

Record State : Type := mkState {
  selectedWaypoint : option Waypoint;
  isExpanded : bool;
  isDrawerVisible : bool;
  shouldRenderDrawer : bool;
  isClosingAnimated : bool;
  isLoadingExpanded : bool;
  fullEntryData : option Detail;
  isCenteringFromWaypoint : bool;
  drawerHeight : Z; (* percent of the screen height *)
  translateY : Z;
  pending : list Task
}.

Definition initial : State :=
  mkState None false false false false false None false 40 0 [].

Definition setSelectedWaypoint v s :=
  mkState v (isExpanded s) (isDrawerVisible s) (shouldRenderDrawer s)
    (isClosingAnimated s) (isLoadingExpanded s) (fullEntryData s)
    (isCenteringFromWaypoint s) (drawerHeight s) (translateY s) (pending s).
Definition setIsExpanded v s :=
  mkState (selectedWaypoint s) v (isDrawerVisible s) (shouldRenderDrawer s)
    (isClosingAnimated s) (isLoadingExpanded s) (fullEntryData s)
    (isCenteringFromWaypoint s) (drawerHeight s) (translateY s) (pending s).
Definition setIsDrawerVisible v s :=
  mkState (selectedWaypoint s) (isExpanded s) v (shouldRenderDrawer s)
    (isClosingAnimated s) (isLoadingExpanded s) (fullEntryData s)
    (isCenteringFromWaypoint s) (drawerHeight s) (translateY s) (pending s).
Definition setShouldRenderDrawer v s :=
  mkState (selectedWaypoint s) (isExpanded s) (isDrawerVisible s) v
    (isClosingAnimated s) (isLoadingExpanded s) (fullEntryData s)
    (isCenteringFromWaypoint s) (drawerHeight s) (translateY s) (pending s).
Definition setIsClosingAnimated v s :=
  mkState (selectedWaypoint s) (isExpanded s) (isDrawerVisible s)
    (shouldRenderDrawer s) v (isLoadingExpanded s) (fullEntryData s)
    (isCenteringFromWaypoint s) (drawerHeight s) (translateY s) (pending s).
Definition setIsLoadingExpanded v s :=
  mkState (selectedWaypoint s) (isExpanded s) (isDrawerVisible s)
    (shouldRenderDrawer s) (isClosingAnimated s) v (fullEntryData s)
    (isCenteringFromWaypoint s) (drawerHeight s) (translateY s) (pending s).
Definition setFullEntryData v s :=
  mkState (selectedWaypoint s) (isExpanded s) (isDrawerVisible s)
    (shouldRenderDrawer s) (isClosingAnimated s) (isLoadingExpanded s) v
    (isCenteringFromWaypoint s) (drawerHeight s) (translateY s) (pending s).
Definition setIsCenteringFromWaypoint v s :=
  mkState (selectedWaypoint s) (isExpanded s) (isDrawerVisible s)
    (shouldRenderDrawer s) (isClosingAnimated s) (isLoadingExpanded s)
    (fullEntryData s) v (drawerHeight s) (translateY s) (pending s).
(** [drawerHeight.setValue], and a spring once it has come to rest. *)
Definition setDrawerHeight v s :=
  mkState (selectedWaypoint s) (isExpanded s) (isDrawerVisible s)
    (shouldRenderDrawer s) (isClosingAnimated s) (isLoadingExpanded s)
    (fullEntryData s) (isCenteringFromWaypoint s) v (translateY s)
    (pending s).
Definition setTranslateY v s :=
  mkState (selectedWaypoint s) (isExpanded s) (isDrawerVisible s)
    (shouldRenderDrawer s) (isClosingAnimated s) (isLoadingExpanded s)
    (fullEntryData s) (isCenteringFromWaypoint s) (drawerHeight s) v
    (pending s).
Definition setPending v s :=
  mkState (selectedWaypoint s) (isExpanded s) (isDrawerVisible s)
    (shouldRenderDrawer s) (isClosingAnimated s) (isLoadingExpanded s)
    (fullEntryData s) (isCenteringFromWaypoint s) (drawerHeight s)
    (translateY s) v.

(** Starting a timer, an animation with a callback, or a fetch. *)
Definition start (t : Task) (s : State) : State :=
  setPending (pending s ++ [t]) s.

Definition handleWaypointPress (waypoint : Waypoint) (fromListView : bool)
    (s : State) : State :=
  let s := s |> setSelectedWaypoint (Some waypoint)
             |> setShouldRenderDrawer true
             |> setIsDrawerVisible true
             |> setIsCenteringFromWaypoint true
             |> setIsClosingAnimated false
             |> start CenteringTimeout
             |> setFullEntryData None in
  if fromListView then
    let s := s |> setIsLoadingExpanded true
               |> setIsExpanded false
               |> setDrawerHeight 90 in
    match postId waypoint with
    | Some id =>
        if JS.truthyStr (Some id) then s |> start (ListFetch waypoint id)
        else s |> setFullEntryData (Some (Preview waypoint))
               |> setIsExpanded true
               |> setIsLoadingExpanded false
    | None =>
        s |> setFullEntryData (Some (Preview waypoint))
          |> setIsExpanded true
          |> setIsLoadingExpanded false
    end
  else
    s |> setIsExpanded false
      |> setIsLoadingExpanded false
      |> setDrawerHeight 40
      |> setTranslateY 0.

Definition handleExpandDetail (s : State) : State :=
  match selectedWaypoint s with
  | Some w =>
      if JS.truthyStr (postId w) then
        s |> setIsLoadingExpanded true
          |> setTranslateY 0
          |> start (ExpandSpring w)
      else s
  | None => s
  end.

Definition handleCollapseDetail (s : State) : State :=
  s |> setIsExpanded false
    |> setIsLoadingExpanded false
    |> setFullEntryData None
    |> setTranslateY 0
    |> setDrawerHeight 40.

Definition handleCloseWaypointDetail (smooth : bool) (s : State) : State :=
  let s := s |> setFullEntryData None in
  if smooth then
    s |> setIsClosingAnimated true
      |> setIsExpanded false
      |> start CloseAnimation
  else
    s |> setIsExpanded false
      |> setTranslateY 0
      |> setIsDrawerVisible false
      |> setSelectedWaypoint None
      |> setShouldRenderDrawer false
      |> setIsClosingAnimated false
      |> setDrawerHeight 0.

(** The two branches after a detail fetch. *)
Definition showDetail (d : Detail) (s : State) : State :=
  s |> setFullEntryData (Some d)
    |> setIsExpanded true
    |> setIsLoadingExpanded false.

(** The callback of a finished task. *)
Definition complete (net : Network) (t : Task) (s : State) : State :=
  match t with
  | CenteringTimeout => s |> setIsCenteringFromWaypoint false
  | ListFetch waypoint id =>
      match getPostById net id with
      | Some fullEntry => showDetail (FullEntry fullEntry) s
      | None => showDetail (Preview waypoint) s
      end
  | ExpandSpring selected =>
      let s := s |> setDrawerHeight 90 in
      match postId selected with
      | Some id => s |> start (ExpandFetch selected id)
      | None => showDetail (Preview selected) s
      end
  | ExpandFetch selected id =>
      match getPostById net id with
      | Some fullEntry => showDetail (FullEntry fullEntry) s
      | None => showDetail (Preview selected) s
      end
  | CloseAnimation =>
      s |> setDrawerHeight 0
        |> setTranslateY 0
        |> setIsDrawerVisible false
        |> setShouldRenderDrawer false
        |> setIsClosingAnimated false
        |> setSelectedWaypoint None
  end.

(** The [n]-th task in flight finishes. *)
Definition deliver (net : Network) (n : nat) (s : State) : State :=
  match nth_error (pending s) n with
  | Some t => complete net t (setPending (removeAt n (pending s)) s)
  | None => s
  end.

(** What the drawer renders. *)
Inductive DrawerState : Type :=
| Closed
| Closing
| Collapsed (selection : Waypoint)
| Loading (selection : Waypoint)
| Expanded (selection : Waypoint) (detail : option Detail).

Definition drawerState (s : State) : DrawerState :=
  match selectedWaypoint s with
  | Some w =>
      if shouldRenderDrawer s then
        if isLoadingExpanded s then Loading w
        else if isExpanded s then Expanded w (fullEntryData s)
        else if negb (isClosingAnimated s) then Collapsed w
        else Closing
      else Closed
  | None => Closed
  end.

Definition isFetch (t : Task) : bool :=
  match t with
  | ListFetch _ _ | ExpandFetch _ _ => true
  | _ => false
  end.

(** *** Gestures on the drawer *)

(** [onMoveShouldSetPanResponder]: does the drawer take the gesture. *)
Definition onMoveShouldSetPanResponder (scrollOffsetY dx dy : JS.num)
    (s : State) : bool :=
  if JS.gtb (JS.Math_abs dy) (JS.ofZ 10) &&
     JS.gtb (JS.Math_abs dy) (JS.Math_abs dx)
  then
    if isExpanded s
    then JS.gtb dy JS.zero && JS.leb scrollOffsetY JS.zero
    else true
  else false.

(** [onPanResponderRelease], with the velocity [vy] and the travel [dy]
    of the gesture; the offsets of the animated values are flattened
    and do not show in the state. *)
Definition onPanResponderRelease (vy dy : JS.num) (s : State) : State :=
  if JS.gtb vy (JS.Num 5 1) || JS.gtb dy (JS.ofZ 100) then
    handleCloseWaypointDetail true s
  else if JS.ltb vy (JS.Num (-5) 1) || JS.ltb dy (JS.ofZ (-100)) then
    if negb (isExpanded s) then handleExpandDetail s else s
  else
    if isExpanded s then s |> setTranslateY 0
    else handleCollapseDetail s.

(** *** Search, loading and the waypoint query *)

Record SearchState : Type := mkSearchState {
  showSearchOverlay : bool;
  hasEverSearched : bool;
  isMapAnimating : bool;
  shouldLoadWaypoints : bool;
  showListView : bool;
  hasMapInteracted : bool;
  followingOnly : bool; (* [filterMode === 'following'] *)
  mapBounds : MapBounds;
  allWaypoints : JSMap.t Waypoint
}.

Definition shouldShowOverlay (s : SearchState) : bool :=
  negb (hasEverSearched s) && showSearchOverlay s.

(** The call [queryFn] makes to [api.map.queryMap]. *)
Inductive MapQuery : Type :=
| QueryBounds (sw ne : LatLon)
| QueryGlobal (limit : Z).

Definition queryFn (s : SearchState) : option MapQuery :=
  if negb (shouldLoadWaypoints s) then None
  else if shouldShowOverlay s then None
  else
    match mapBounds s with
    | BoundsCorners (Some ne) (Some sw) =>
        Some (QueryBounds (mkLatLon (snd sw) (fst sw))
                          (mkLatLon (snd ne) (fst ne)))
    | _ => Some (QueryGlobal 100)
    end.

(** The [enabled] flag of the query. *)
Definition queryEnabled (isAuthenticated : bool) (s : SearchState) : bool :=
  isAuthenticated && shouldLoadWaypoints s && negb (isMapAnimating s)
  && negb (shouldShowOverlay s).

(** The waypoints handed to the map, and the data of the list view. *)
Definition mapWaypoints (s : SearchState) : list Waypoint :=
  if shouldShowOverlay s then [] else JSMap.values (allWaypoints s).

Definition listData (s : SearchState) : list Waypoint :=
  visibleWaypoints (allWaypoints s) (mapBounds s).

(** [updateMapBounds] on the whole search state, given what
    [getCurrentBounds] returned. *)
Definition updateBounds (bounds : option Bounds) (s : SearchState)
  : SearchState :=
  match bounds with
  | Some _ =>
      mkSearchState (showSearchOverlay s) (hasEverSearched s)
        (isMapAnimating s)
        (if hasMapInteracted s || hasEverSearched s then true
         else shouldLoadWaypoints s)
        (showListView s) (hasMapInteracted s) (followingOnly s)
        (updateMapBounds bounds (mapBounds s)) (allWaypoints s)
  | None => s
  end.

(** [handleMapRegionChange]: nothing while the map is being centred on
    a pressed waypoint; else the interaction is noted and the bounds
    are updated by the [updateMapBounds] of the current render. *)
Definition handleMapRegionChange (isCenteringFromWaypoint : bool)
    (bounds : option Bounds) (s : SearchState) : SearchState :=
  if isCenteringFromWaypoint then s
  else
    let s' := updateBounds bounds s in
    mkSearchState (showSearchOverlay s') (hasEverSearched s')
      (isMapAnimating s') (shouldLoadWaypoints s') (showListView s') true
      (followingOnly s') (mapBounds s') (allWaypoints s').

(** [handleBackToSearch] and [handleClearSearch] write the same flags. *)
Definition handleBackToSearch (s : SearchState) : SearchState :=
  mkSearchState true false false false false (hasMapInteracted s)
    (followingOnly s) (mapBounds s) JSMap.empty.

Definition handleClearSearch (s : SearchState) : SearchState :=
  mkSearchState true false false false false (hasMapInteracted s)
    (followingOnly s) (mapBounds s) JSMap.empty.

Definition handleFilterModeChange (following : bool) (s : SearchState)
  : SearchState :=
  mkSearchState (showSearchOverlay s) (hasEverSearched s) (isMapAnimating s)
    (shouldLoadWaypoints s) (showListView s) (hasMapInteracted s) following
    (mapBounds s) JSMap.empty.

(** The merge effect on the search state. *)
Definition receive (recentWaypoints : option (list Waypoint))
    (s : SearchState) : SearchState :=
  mkSearchState (showSearchOverlay s) (hasEverSearched s) (isMapAnimating s)
    (shouldLoadWaypoints s) (showListView s) (hasMapInteracted s)
    (followingOnly s) (mapBounds s)
    (mergeEffect recentWaypoints (allWaypoints s)).

(** *** Continents *)

Definition within (lo hi : Z) (x : JS.num) : bool :=
  JS.geb x (JS.ofZ lo) && JS.leb x (JS.ofZ hi).

Definition getContinent (lat lon : JS.num) : string :=
  if within 35 72 lat && within (-25) 60 lon then "Europe"
  else if within (-35) 37 lat && within (-18) 52 lon then "Africa"
  else if within 5 55 lat && within 60 180 lon then "Asia"
  else if within 10 72 lat && within (-180) (-30) lon then "North America"
  else if within (-56) 13 lat && within (-82) (-35) lon then "South America"
  else if within (-47) (-10) lat && within 113 154 lon then "Australia"
  else if JS.ltb lat (JS.ofZ (-60)) then "Antarctica"
  else if within (-25) 30 lat &&
          (within 120 180 lon || within (-180) (-130) lon)
       then "Oceania"
       else "the world".

(** *** The search state from start-up on *)

Definition initialSearch : SearchState :=
  mkSearchState true false false false false false false BoundsNull
    JSMap.empty.

(** The state writes of [handleSearchResultSelect]. *)
Definition handleSearchResultSelect (s : SearchState) : SearchState :=
  mkSearchState false true true (shouldLoadWaypoints s) (showListView s)
    (hasMapInteracted s) (followingOnly s) (mapBounds s) (allWaypoints s).

(** The timer set by a search or by a geolocation fires, two seconds
    later: loading is switched on and the bounds are read. *)
Definition mapAnimationDone (bounds : option Bounds) (s : SearchState)
  : SearchState :=
  mkSearchState (showSearchOverlay s) (hasEverSearched s) false true
    (showListView s) (hasMapInteracted s) (followingOnly s)
    (updateMapBounds bounds (mapBounds s)) (allWaypoints s).

(** [handleGeolocate] and its two callbacks. *)
Definition handleGeolocate (s : SearchState) : SearchState :=
  mkSearchState false (hasEverSearched s) true (shouldLoadWaypoints s)
    (showListView s) (hasMapInteracted s) (followingOnly s) (mapBounds s)
    (allWaypoints s).

Definition geolocated (s : SearchState) : SearchState :=
  mkSearchState (showSearchOverlay s) true (isMapAnimating s)
    (shouldLoadWaypoints s) (showListView s) (hasMapInteracted s)
    (followingOnly s) (mapBounds s) (allWaypoints s).

Definition geolocationFailed (s : SearchState) : SearchState :=
  mkSearchState true (hasEverSearched s) false (shouldLoadWaypoints s)
    (showListView s) (hasMapInteracted s) (followingOnly s) (mapBounds s)
    (allWaypoints s).

Definition handleToggleListView (s : SearchState) : SearchState :=
  mkSearchState (showSearchOverlay s) (hasEverSearched s) (isMapAnimating s)
    (shouldLoadWaypoints s) (negb (showListView s)) (hasMapInteracted s)
    (followingOnly s) (mapBounds s) (allWaypoints s).

(** Everything that writes the search state. *)
Inductive SearchEvent : Type :=
| RegionChange (isCenteringFromWaypoint : bool) (bounds : option Bounds)
| SearchResultSelect
| MapAnimationDone (bounds : option Bounds)
| Geolocate
| Geolocated
| GeolocationFailed
| BackToSearch
| ClearSearch
| FilterModeChange (following : bool)
| ToggleListView
| Received (recentWaypoints : option (list Waypoint)).

Definition searchStep (s : SearchState) (e : SearchEvent) : SearchState :=
  match e with
  | RegionChange c b => handleMapRegionChange c b s
  | SearchResultSelect => handleSearchResultSelect s
  | MapAnimationDone b => mapAnimationDone b s
  | Geolocate => handleGeolocate s
  | Geolocated => geolocated s
  | GeolocationFailed => geolocationFailed s
  | BackToSearch => handleBackToSearch s
  | ClearSearch => handleClearSearch s
  | FilterModeChange f => handleFilterModeChange f s
  | ToggleListView => handleToggleListView s
  | Received r => receive r s
  end.

Definition searchRun (events : list SearchEvent) : SearchState :=
  fold_left searchStep events initialSearch.

(** [mapBounds] is [null] or the array, not the object with corners. *)
Definition cornerless (b : MapBounds) : bool :=
  match b with
  | BoundsCorners _ _ => false
  | _ => true
  end.

End ExploreScreen.

(** ** The journal screen *)

Module JournalScreen.

Inductive Tab : Type := entries | journeys | following | followers.

Definition Tab_eqb (a b : Tab) : bool :=
  match a, b with
  | entries, entries | journeys, journeys
  | following, following | followers, followers => true
  | _, _ => false
  end.

(** *** Posts to waypoints *)

(** The callback of [userPosts.data.map] in [userWaypoints]. *)
Definition toWaypoint (post : Post) : Waypoint :=
  let cur := (latOf (p_coords post), lonOf (p_coords post)) in
  let cur := fallback cur (p_location post) in
  {| w_id := None;
     w_lat := JS.orZero (fst cur);
     w_lon := JS.orZero (snd cur);
     w_date := orDate (p_date post) (p_createdAt post);
     w_post := Some post |}.

Definition hasCoords (waypoint : Waypoint) : bool :=
  negb (JS.isZero (w_lat waypoint)) && negb (JS.isZero (w_lon waypoint)).

Definition userWaypoints (userPosts : option (list Post)) : list Waypoint :=
  match userPosts with
  | None => []
  | Some data => filter hasCoords (map toWaypoint data)
  end.

(** The effect that updates the stable collection. *)
Definition mergeEffect (userWaypoints : list Waypoint)
    (allUserEntries : JSMap.t Waypoint) : JSMap.t Waypoint :=
  if (0 <? List.length userWaypoints)%nat
  then merge allUserEntries userWaypoints
  else allUserEntries.

(** *** Entries inside the map bounds *)

(** What [mapViewRef.current] and [getCurrentBounds] give. *)
Inductive BoundsReply : Type :=
| NoMapView
| Threw
| Reply (bounds : option Bounds).

(** [updateVisibleEntries]: the new value of [visibleEntries]. *)
Definition updateVisibleEntries (reply : BoundsReply)
    (mapWaypoints : option (list Waypoint))
    (visibleEntries : list Waypoint) : list Waypoint :=
  let waypointsToFilter :=
    match mapWaypoints with Some l => l | None => [] end in
  match reply with
  | NoMapView => visibleEntries
  | Threw => waypointsToFilter
  | Reply None => waypointsToFilter
  | Reply (Some bounds) =>
      let swLat := ll_lat (b_sw bounds) in
      let swLon := ll_lon (b_sw bounds) in
      let neLat := ll_lat (b_ne bounds) in
      let neLon := ll_lon (b_ne bounds) in
      if (0 <? List.length waypointsToFilter)%nat &&
         JS.truthy swLat && JS.truthy swLon &&
         JS.truthy neLat && JS.truthy neLon
      then filter (inViewport swLat neLat swLon neLon) waypointsToFilter
      else waypointsToFilter
  end.

(** *** Journey waypoints *)

(** The callback of [waypoints.map] that fetches the full post. *)
Definition enrich (net : Network) (waypoint : RawWaypoint) : RawWaypoint :=
  match rw_post waypoint with
  | Some post =>
      match p_id post with
      | Some id =>
          if JS.truthyStr (Some id) then
            match getPostById net id with
            | Some fullPostData =>
                {| rw_id := rw_id waypoint;
                   rw_coords := rw_coords waypoint;
                   rw_location := rw_location waypoint;
                   rw_date := rw_date waypoint;
                   rw_post := Some fullPostData |}
            | None => waypoint
            end
          else waypoint
      | None => waypoint
      end
  | None => waypoint
  end.

(** [waypoint.post?.date] *)
Definition rawPostDate (waypoint : RawWaypoint) : option Z :=
  match rw_post waypoint with Some p => p_date p | None => None end.

(** The callback of [waypoints.map] that builds [transformedWaypoints]. *)
Definition transform (waypoint : RawWaypoint) : Waypoint :=
  let cur :=
    match rw_post waypoint with
    | Some post =>
        let lat := JS.orNum (latOf (p_coords post))
                     (c_lat (rw_coords waypoint)) in
        let lon := JS.orNum (JS.orNum (lonOf (p_coords post))
                               (c_lon (rw_coords waypoint)))
                     (c_lng (rw_coords waypoint)) in
        fallback (lat, lon) (p_location post)
    | None =>
        fallback (latOf (rw_coords waypoint), lonOf (rw_coords waypoint))
                 (rw_location waypoint)
    end in
  {| w_id := rw_id waypoint;
     w_lat := JS.orZero (fst cur);
     w_lon := JS.orZero (snd cur);
     w_date := orDate (rw_date waypoint) (rawPostDate waypoint);
     w_post := rw_post waypoint |}.

(** [new Date(a.date || a.post?.date || 0).getTime()] *)
Definition sortTime (a : Waypoint) : Z :=
  match orDate (w_date a)
          (match w_post a with Some p => p_date p | None => None end) with
  | Some t => t
  | None => 0
  end.

(** The comparator [(a, b) => dateA - dateB]. *)
Definition compareDates (a b : Waypoint) : Z := sortTime a - sortTime b.

(** [Array.prototype.sort] with a comparator: a stable sort. *)
Fixpoint insertSorted {A : Type} (cmp : A -> A -> Z) (x : A) (l : list A)
  : list A :=
  match l with
  | [] => [x]
  | y :: rest =>
      if cmp x y <=? 0 then x :: y :: rest
      else y :: insertSorted cmp x rest
  end.

Definition sort {A : Type} (cmp : A -> A -> Z) (l : list A) : list A :=
  fold_right (insertSorted cmp) [] l.

(** Ascending order of the times the comparator reads. *)
Definition ascending (a b : Waypoint) : Prop := sortTime a <= sortTime b.

(** [waypoints] after the [try] block, given the answer to
    [getTripById]: the enriched waypoints of the trip, or none. *)
Definition loadedWaypoints (net : Network) (fullTrip : option Trip)
  : list RawWaypoint :=
  match fullTrip with
  | Some trip =>
      match t_waypoints trip with
      | Some l => map (enrich net) l
      | None => []
      end
  | None => []
  end.

Definition sortedWaypoints (net : Network) (fullTrip : option Trip)
  : list Waypoint :=
  sort compareDates (map transform (loadedWaypoints net fullTrip)).

(** *** State *)

Inductive Task : Type :=
| JourneyLoad (journey : Trip)
| ExpandSpring (selected : Waypoint)
| ExpandFetch (selected : Waypoint) (id : string).

Record State : Type := mkState {
  selectedEntry : option Waypoint;
  activeTab : Tab;
  isJourneyMode : bool;
  selectedJourney : option Trip;
  journeyWaypoints : list Waypoint;
  isExpanded : bool;
  isDrawerVisible : bool;
  shouldRenderDrawer : bool;
  isLoadingExpanded : bool;
  fullEntryData : option Detail;
  visibleEntries : list Waypoint;
  drawerHeight : Z;
  translateY : Z;
  pending : list Task
}.

Definition initial : State :=
  mkState None entries false None [] false false false false None [] 30 0 [].

Definition setSelectedEntry v s :=
  mkState v (activeTab s) (isJourneyMode s) (selectedJourney s)
    (journeyWaypoints s) (isExpanded s) (isDrawerVisible s)
    (shouldRenderDrawer s) (isLoadingExpanded s) (fullEntryData s)
    (visibleEntries s) (drawerHeight s) (translateY s) (pending s).
Definition setActiveTab v s :=
  mkState (selectedEntry s) v (isJourneyMode s) (selectedJourney s)
    (journeyWaypoints s) (isExpanded s) (isDrawerVisible s)
    (shouldRenderDrawer s) (isLoadingExpanded s) (fullEntryData s)
    (visibleEntries s) (drawerHeight s) (translateY s) (pending s).
Definition setIsJourneyMode v s :=
  mkState (selectedEntry s) (activeTab s) v (selectedJourney s)
    (journeyWaypoints s) (isExpanded s) (isDrawerVisible s)
    (shouldRenderDrawer s) (isLoadingExpanded s) (fullEntryData s)
    (visibleEntries s) (drawerHeight s) (translateY s) (pending s).
Definition setSelectedJourney v s :=
  mkState (selectedEntry s) (activeTab s) (isJourneyMode s) v
    (journeyWaypoints s) (isExpanded s) (isDrawerVisible s)
    (shouldRenderDrawer s) (isLoadingExpanded s) (fullEntryData s)
    (visibleEntries s) (drawerHeight s) (translateY s) (pending s).
Definition setJourneyWaypoints v s :=
  mkState (selectedEntry s) (activeTab s) (isJourneyMode s)
    (selectedJourney s) v (isExpanded s) (isDrawerVisible s)
    (shouldRenderDrawer s) (isLoadingExpanded s) (fullEntryData s)
    (visibleEntries s) (drawerHeight s) (translateY s) (pending s).
Definition setIsExpanded v s :=
  mkState (selectedEntry s) (activeTab s) (isJourneyMode s)
    (selectedJourney s) (journeyWaypoints s) v (isDrawerVisible s)
    (shouldRenderDrawer s) (isLoadingExpanded s) (fullEntryData s)
    (visibleEntries s) (drawerHeight s) (translateY s) (pending s).
Definition setIsLoadingExpanded v s :=
  mkState (selectedEntry s) (activeTab s) (isJourneyMode s)
    (selectedJourney s) (journeyWaypoints s) (isExpanded s)
    (isDrawerVisible s) (shouldRenderDrawer s) v (fullEntryData s)
    (visibleEntries s) (drawerHeight s) (translateY s) (pending s).
Definition setFullEntryData v s :=
  mkState (selectedEntry s) (activeTab s) (isJourneyMode s)
    (selectedJourney s) (journeyWaypoints s) (isExpanded s)
    (isDrawerVisible s) (shouldRenderDrawer s) (isLoadingExpanded s) v
    (visibleEntries s) (drawerHeight s) (translateY s) (pending s).
Definition setVisibleEntries v s :=
  mkState (selectedEntry s) (activeTab s) (isJourneyMode s)
    (selectedJourney s) (journeyWaypoints s) (isExpanded s)
    (isDrawerVisible s) (shouldRenderDrawer s) (isLoadingExpanded s)
    (fullEntryData s) v (drawerHeight s) (translateY s) (pending s).
Definition setDrawerHeight v s :=
  mkState (selectedEntry s) (activeTab s) (isJourneyMode s)
    (selectedJourney s) (journeyWaypoints s) (isExpanded s)
    (isDrawerVisible s) (shouldRenderDrawer s) (isLoadingExpanded s)
    (fullEntryData s) (visibleEntries s) v (translateY s) (pending s).
Definition setTranslateY v s :=
  mkState (selectedEntry s) (activeTab s) (isJourneyMode s)
    (selectedJourney s) (journeyWaypoints s) (isExpanded s)
    (isDrawerVisible s) (shouldRenderDrawer s) (isLoadingExpanded s)
    (fullEntryData s) (visibleEntries s) (drawerHeight s) v (pending s).
Definition setPending v s :=
  mkState (selectedEntry s) (activeTab s) (isJourneyMode s)
    (selectedJourney s) (journeyWaypoints s) (isExpanded s)
    (isDrawerVisible s) (shouldRenderDrawer s) (isLoadingExpanded s)
    (fullEntryData s) (visibleEntries s) (drawerHeight s) (translateY s) v.

Definition start (t : Task) (s : State) : State :=
  setPending (pending s ++ [t]) s.

(** *** Journey mode *)

(** [enterJourneyMode] up to its first [await]. *)
Definition enterJourneyMode (journey : Trip) (s : State) : State :=
  s |> setSelectedJourney (Some journey)
    |> setIsJourneyMode true
    |> setActiveTab entries
    |> start (JourneyLoad journey).

(** [enterJourneyMode] from the answer of [getTripById] to its end. *)
Definition journeyLoaded (net : Network) (journey : Trip) (s : State)
  : State :=
  let fullTrip := getTripById net (t_id journey) in
  let s :=
    match fullTrip with
    | Some trip => s |> setSelectedJourney (Some trip)
    | None => s
    end in
  s |> setJourneyWaypoints (sortedWaypoints net fullTrip)
    |> setActiveTab entries.

Definition exitJourneyMode (s : State) : State :=
  s |> setIsJourneyMode false
    |> setSelectedJourney None
    |> setJourneyWaypoints [].

(** The auto-exit effect. *)
Definition autoExit (s : State) : State :=
  if isJourneyMode s && negb (Tab_eqb (activeTab s) entries)
                     && negb (Tab_eqb (activeTab s) journeys)
  then exitJourneyMode s
  else s.

Definition handleTabChange (tab : Tab) (s : State) : State :=
  s |> setActiveTab tab.

Definition handleEntryPress (entry : Waypoint) (s : State) : State :=
  let s := s |> setSelectedEntry (Some entry) in
  if negb (Tab_eqb (activeTab s) entries) then s |> setActiveTab entries
  else s.

(** *** The list under the map *)

(** [a === b] on two fields that may be missing. *)
Definition sameId (a b : option string) : bool :=
  match a, b with
  | Some x, Some y => String.eqb x y
  | None, None => true
  | _, _ => false
  end.

(** The predicate given to [findIndex]. *)
Definition isSelected (selectedEntry entry : Waypoint) : bool :=
  match w_post entry, w_post selectedEntry with
  | Some ep, Some sp => sameId (p_id ep) (p_id sp)
  | None, None => sameId (w_id entry) (w_id selectedEntry)
  | _, _ => false
  end.

(** [Array.prototype.findIndex], [-1] when nothing is found. *)
Fixpoint findIndex {A : Type} (f : A -> bool) (l : list A) : Z :=
  match l with
  | [] => -1
  | x :: rest =>
      if f x then 0
      else let i := findIndex f rest in if i <? 0 then -1 else i + 1
  end.

(** The list [entriesToDisplay] starts from: the journey's waypoints
    in journey mode on the entries tab, else the entries in view. *)
Definition shownEntries (s : State) : list Waypoint :=
  if isJourneyMode s && Tab_eqb (activeTab s) entries
  then journeyWaypoints s
  else visibleEntries s.

Definition entriesToDisplay (s : State) : list Waypoint :=
  let entries' := shownEntries s in
  match selectedEntry s with
  | Some sel =>
      if (0 <? List.length entries')%nat then
        let selectedIndex := findIndex (isSelected sel) entries' in
        if 0 <? selectedIndex then
          match nth_error entries' (Z.to_nat selectedIndex) with
          | Some selectedEntryData =>
              selectedEntryData
                :: removeAt (Z.to_nat selectedIndex) entries'
          | None => entries'
          end
        else entries'
      else entries'
  | None => entries'
  end.

(** *** The drawer *)

Definition handleExpandDetail (s : State) : State :=
  match selectedEntry s with
  | Some w =>
      if JS.truthyStr (postId w) then
        s |> setIsLoadingExpanded true
          |> setTranslateY 0
          |> start (ExpandSpring w)
      else s
  | None => s
  end.

Definition handleCollapseDetail (s : State) : State :=
  s |> setIsExpanded false
    |> setIsLoadingExpanded false
    |> setFullEntryData None
    |> setTranslateY 0
    |> setDrawerHeight 30.

Definition showDetail (d : Detail) (s : State) : State :=
  s |> setFullEntryData (Some d)
    |> setIsExpanded true
    |> setIsLoadingExpanded false.

Definition complete (net : Network) (t : Task) (s : State) : State :=
  match t with
  | JourneyLoad journey => journeyLoaded net journey s
  | ExpandSpring selected =>
      let s := s |> setDrawerHeight 90 in
      match postId selected with
      | Some id => s |> start (ExpandFetch selected id)
      | None => showDetail (Preview selected) s
      end
  | ExpandFetch selected id =>
      match getPostById net id with
      | Some fullEntry => showDetail (FullEntry fullEntry) s
      | None => showDetail (Preview selected) s
      end
  end.

(** A handler runs, then the effects of the render that follows. *)
Definition render (s : State) : State := autoExit s.

Definition deliver (net : Network) (n : nat) (s : State) : State :=
  match nth_error (pending s) n with
  | Some t => render (complete net t (setPending (removeAt n (pending s)) s))
  | None => s
  end.

Inductive DrawerState : Type :=
| Closed
| Collapsed (selection : Waypoint)
| Loading (selection : Waypoint)
| Expanded (selection : Waypoint) (detail : option Detail).

Definition drawerState (s : State) : DrawerState :=
  match selectedEntry s with
  | Some w =>
      if shouldRenderDrawer s then
        if isLoadingExpanded s then Loading w
        else if isExpanded s then Expanded w (fullEntryData s)
        else Collapsed w
      else Closed
  | None => Closed
  end.

(** *** Cards of the list, closing the drawer, gestures *)

Definition setIsDrawerVisible v s :=
  mkState (selectedEntry s) (activeTab s) (isJourneyMode s)
    (selectedJourney s) (journeyWaypoints s) (isExpanded s) v
    (shouldRenderDrawer s) (isLoadingExpanded s) (fullEntryData s)
    (visibleEntries s) (drawerHeight s) (translateY s) (pending s).
Definition setShouldRenderDrawer v s :=
  mkState (selectedEntry s) (activeTab s) (isJourneyMode s)
    (selectedJourney s) (journeyWaypoints s) (isExpanded s)
    (isDrawerVisible s) v (isLoadingExpanded s) (fullEntryData s)
    (visibleEntries s) (drawerHeight s) (translateY s) (pending s).

(** What a press on a card asks for besides the state change: the map
    is centred, or the full entry is fetched 100 ms later.  The flag
    [hasMapInteracted], which the first tap also sets, only shows the
    reset button and is not part of the state here. *)
Inductive CardEffect : Type :=
| NoEffect
| CenterOn (lon lat : JS.num) (zoom : Z)
| FetchLater (entry : Waypoint).

(** [if (mapViewRef.current && entry.lat && entry.lon) centerOnLocation(...)] *)
Definition centerOnEntry (mapView : bool) (entry : Waypoint) : CardEffect :=
  if mapView && JS.truthy (w_lat entry) && JS.truthy (w_lon entry)
  then CenterOn (w_lon entry) (w_lat entry) 10
  else NoEffect.

Definition handleEntryCardPress (mapView : bool) (entry : Waypoint)
    (s : State) : State * CardEffect :=
  match w_post entry with
  | Some post =>
      let isAlreadySelected :=
        sameId (match selectedEntry s with
                | Some sel => postId sel
                | None => None
                end) (p_id post) in
      if isAlreadySelected then
        (s |> setShouldRenderDrawer true
           |> setIsDrawerVisible true
           |> setIsLoadingExpanded true
           |> setFullEntryData None
           |> setDrawerHeight 90
           |> setTranslateY 0,
         FetchLater entry)
      else
        (s |> setSelectedEntry (Some entry), centerOnEntry mapView entry)
  | None =>
      let isWaypointSelected :=
        match selectedEntry s with
        | Some sel =>
            sameId (w_id sel) (w_id entry) &&
            match w_post sel with Some _ => false | None => true end
        | None => sameId None (w_id entry)
        end in
      if isWaypointSelected then (s, NoEffect)
      else (s |> setSelectedEntry (Some entry), centerOnEntry mapView entry)
  end.

(** The fetch started by the timer of the second tap settles, with
    the full entry or with a failure ([None]): the full entry is shown,
    or the card's own data. *)
Definition cardFetchSettled (answer : option Post) (entry : Waypoint)
    (s : State) : State :=
  match answer with
  | Some fullEntry => showDetail (FullEntry fullEntry) s
  | None => showDetail (Preview entry) s
  end.

(** [handleCloseEntryDetail]: with [smooth] the state is cleared by the
    callback of the closing animation, [closeAnimationDone]. *)
Definition handleCloseEntryDetail (smooth : bool) (s : State) : State :=
  let s := s |> setFullEntryData None in
  if smooth then s |> setIsExpanded false
  else
    s |> setIsExpanded false
      |> setTranslateY 0
      |> setIsDrawerVisible false
      |> setSelectedEntry None
      |> setShouldRenderDrawer false
      |> setDrawerHeight 0.

Definition closeAnimationDone (s : State) : State :=
  s |> setDrawerHeight 0
    |> setTranslateY 0
    |> setIsDrawerVisible false
    |> setShouldRenderDrawer false
    |> setSelectedEntry None.

Definition onMoveShouldSetPanResponder (scrollOffsetY dx dy : JS.num)
    (s : State) : bool :=
  if JS.gtb (JS.Math_abs dy) (JS.ofZ 10) &&
     JS.gtb (JS.Math_abs dy) (JS.Math_abs dx)
  then
    if isExpanded s
    then JS.gtb dy JS.zero && JS.leb scrollOffsetY JS.zero
    else true
  else false.

Definition onPanResponderRelease (vy dy : JS.num) (s : State) : State :=
  if JS.gtb vy (JS.Num 5 1) || JS.gtb dy (JS.ofZ 100) then
    handleCloseEntryDetail true s
  else if JS.ltb vy (JS.Num (-5) 1) || JS.ltb dy (JS.ofZ (-100)) then
    if negb (isExpanded s) then handleExpandDetail s else s
  else
    if isExpanded s then s |> setTranslateY 0
    else handleCollapseDetail s.

(** *** Countries visited *)

(** [Math.round(x / 5) * 5] *)
Definition block5 (x : JS.num) : JS.num :=
  JS.mul (JS.Math_round (JS.divBy5 x)) (JS.ofZ 5).

(** [`${roundedLat},${roundedLon}`] *)
Definition coordBlock (waypoint : Waypoint) : string :=
  String.append (JS.toString (block5 (w_lat waypoint)))
    (String "," (JS.toString (block5 (w_lon waypoint)))).

Definition uniqueCoordinates (waypoints : list Waypoint) : JSSet.t :=
  fold_left
    (fun set waypoint =>
       if JS.truthy (w_lat waypoint) && JS.truthy (w_lon waypoint)
       then JSSet.add (coordBlock waypoint) set
       else set)
    waypoints JSSet.empty.

Definition calculateCountriesVisited (waypoints : list Waypoint) : nat :=
  JSSet.size (uniqueCoordinates waypoints).

(** *** The collection over the life of the screen *)

(** [allUserEntries] after the given successive values of [userPosts]. *)
Definition collect (updates : list (option (list Post)))
  : JSMap.t Waypoint :=
  fold_left (fun entries userPosts =>
               mergeEffect (userWaypoints userPosts) entries)
            updates JSMap.empty.

End JournalScreen.

(** ** The map component *)

Module MapViewMarkers.

(** The filter of [renderedWaypoints]: both coordinates are numbers
    other than zero. *)
Definition renderable (waypoint : Waypoint) : bool :=
  negb (JS.isZero (w_lon waypoint)) && negb (JS.isZero (w_lat waypoint)).

(** The waypoints that get a marker. *)
Definition renderedWaypoints (selectedJourney : option Trip)
    (journeyWaypoints : list Waypoint)
    (waypointsData : option (list Waypoint)) : list Waypoint :=
  let waypointsToRender :=
    match selectedJourney with
    | Some _ =>
        if (0 <? List.length journeyWaypoints)%nat
        then Some journeyWaypoints
        else waypointsData
    | None => waypointsData
    end in
  match waypointsToRender with
  | Some l => filter renderable l
  | None => []
  end.

(** The markers of the journal map, from the props the journal screen
    passes. *)
Definition journalMarkers (mapWaypoints : option (list Waypoint))
    (s : JournalScreen.State) : list Waypoint :=
  renderedWaypoints
    (if JournalScreen.isJourneyMode s
     then JournalScreen.selectedJourney s else None)
    (if JournalScreen.isJourneyMode s
     then JournalScreen.journeyWaypoints s else [])
    (Some (if JournalScreen.isJourneyMode s then []
           else match mapWaypoints with Some l => l | None => [] end)).

(** The markers of the explore map. *)
Definition exploreMarkers (s : ExploreScreen.SearchState) : list Waypoint :=
  renderedWaypoints None [] (Some (ExploreScreen.mapWaypoints s)).

End MapViewMarkers.

Module MapViewRef.





End MapViewRef.

(** ** The expanded view of the bookmarks screen *)

Module BookmarksView.

Record State : Type := mkState {
  selectedWaypoint : option Waypoint;
  showExpandedView : bool;
  pending : list Waypoint (* presses whose fetch is in flight *)
}.

Definition initial : State := mkState None false [].

Definition handleWaypointPress (waypoint : Waypoint) (s : State) : State :=
  mkState (Some waypoint) true
    (if JS.truthyStr (postId waypoint)
     then pending s ++ [waypoint] else pending s).

(** [{ ...waypoint, post: fullEntry }] *)
Definition withPost (waypoint : Waypoint) (fullEntry : Post) : Waypoint :=
  mkWaypoint (w_id waypoint) (w_lat waypoint) (w_lon waypoint)
    (w_date waypoint) (Some fullEntry).

(** The fetch of a press settles: the selection becomes the pressed
    waypoint with the full entry, or nothing changes when it failed. *)
Definition settle (net : Network) (waypoint : Waypoint) (s : State) : State :=
  match postId waypoint with
  | Some id =>
      match getPostById net id with
      | Some fullEntry =>
          mkState (Some (withPost waypoint fullEntry)) (showExpandedView s)
            (pending s)
      | None => s
      end
  | None => s
  end.

Definition deliver (net : Network) (n : nat) (s : State) : State :=
  match nth_error (pending s) n with
  | Some waypoint =>
      settle net waypoint
        (mkState (selectedWaypoint s) (showExpandedView s)
           (removeAt n (pending s)))
  | None => s
  end.

Definition handleCloseExpandedView (s : State) : State :=
  mkState None false (pending s).

(** The waypoint in the expanded view, if the view is on screen. *)
Definition expandedView (s : State) : option Waypoint :=
  if showExpandedView s then selectedWaypoint s else None.

(** [handleBookmarkPress]: the post whose bookmark is toggled. *)
Definition handleBookmarkPress (waypoint : Waypoint) : option string :=
  match postId waypoint with
  | Some id => if JS.truthyStr (Some id) then Some id else None
  | None => None
  end.

End BookmarksView.

(** ** The specification's wording, for comparison with the code *)

(** The identity key as the specification words it: the post's server id
    if present, else a composite of the rounded coordinates. *)
Definition spec_identity (w : Waypoint) : string :=
  match postId w with
  | Some id => id
  | None =>
      String.append (JS.toString (JS.Math_round (w_lat w)))
        (String "_" (JS.toString (JS.Math_round (w_lon w))))
  end.

(** The four places the bookmarks normaliser looks at, in its order. *)
Definition levels (post : Post) : list (option Coords) :=
  [Some (p_coords post); p_waypoint post; p_location post;
   p_coordinates post].

(** The normaliser as the specification words it: the first level, in
    that order, that holds a non-null, non-zero pair; [0] and [0] when
    there is none. *)
Definition isPair (level : option Coords) : bool :=
  match level with
  | Some c => JS.truthyNum (latOf c) && JS.truthyNum (lonOf c)
  | None => false
  end.

Definition coordsAt (level : option Coords) : JS.num * JS.num :=
  match level with
  | Some c => (JS.orZero (latOf c), JS.orZero (lonOf c))
  | None => (JS.zero, JS.zero)
  end.

Definition spec_coords (post : Post) : JS.num * JS.num :=
  match find isPair (levels post) with
  | Some level => coordsAt level
  | None => (JS.zero, JS.zero)
  end.

(** A level stops the search of the code as soon as one of its two
    coordinates is there. *)
Definition hasEither (level : option Coords) : bool :=
  match level with
  | Some c => JS.truthyNum (latOf c) || JS.truthyNum (lonOf c)
  | None => false
  end.

(** The effective date as the specification words it: the post's date,
    else the waypoint's date, else the time of the fetch, else [0]. *)
Definition spec_effectiveDate (fetchedAt : option Z) (a : Waypoint) : Z :=
  match orDate (match w_post a with Some p => p_date p | None => None end)
          (orDate (w_date a) fetchedAt) with
  | Some t => t
  | None => 0
  end.

Definition spec_ascending (fetchedAt : option Z) (a b : Waypoint) : Prop :=
  spec_effectiveDate fetchedAt a <= spec_effectiveDate fetchedAt b.

(** ** Sample data *)

Module Sample.

(** [10.5], [20.25] and the like. *)
Definition dec (m : Z) (sc : nat) : JS.num := JS.Num m sc.
Definition int (z : Z) : JS.num := JS.ofZ z.

Definition post (id : option string) (date : option Z) : Post :=
  mkPost id noCoords None None None date None 0 false.

(** A waypoint without a post and without an id of its own. *)
Definition bare (lat lon : JS.num) : Waypoint :=
  mkWaypoint None lat lon None None.

Definition entry (id : string) (lat lon : JS.num) (likes : Z) : Waypoint :=
  mkWaypoint None lat lon None
    (Some (mkPost (Some id) noCoords None None None None None likes false)).

Definition offline : Network := mkNetwork (fun _ => None) (fun _ => None).

(** The viewport of the specification's scenario:
    north 50, south 40, east 10, west 0. *)
Definition scenarioBounds : Bounds :=
  mkBounds (mkLatLon (int 50) (int 10)) (mkLatLon (int 40) (int 0)).

(** A viewport with no side on the equator or the prime meridian:
    north 50, south 40, east 10, west 1. *)
Definition offAxisBounds : Bounds :=
  mkBounds (mkLatLon (int 50) (int 10)) (mkLatLon (int 40) (int 1)).

Definition inside : Waypoint := bare (int 45) (int 5).
Definition outsideNorth : Waypoint := bare (int 60) (int 5).
Definition outsideWest : Waypoint := bare (int 45) (int (-5)).

(** A bookmark with a latitude at the top level only and a full pair
    under [location]. *)
Definition halfPair : Post :=
  mkPost (Some "b1"%string)
    (mkCoords (Some (int 5)) None None None None)
    None
    (Some (mkCoords (Some (int 7)) None (Some (int 8)) None None))
    None None None 0 false.

(** A bookmark whose coordinates are under [waypoint] only. *)
Definition nestedPair : Post :=
  mkPost (Some "b2"%string) noCoords
    (Some (mkCoords None (Some (dec 485 1)) None (Some (dec 23 1)) None))
    None None None None 0 false.

(** A post with both coordinates at the top level. *)
Definition topPair : Post :=
  mkPost (Some "p1"%string)
    (mkCoords (Some (int 45)) None None (Some (int 5)) None)
    None None None (Some 100) None 3 false.

(** A trip of two waypoints: the first has its own date 100 and a post
    dated 300, the second has only its own date 200. *)
Definition stopA : RawWaypoint :=
  mkRawWaypoint (Some "wa"%string)
    (mkCoords (Some (int 1)) None (Some (int 1)) None None) None
    (Some 100) (Some (post None (Some 300))).
Definition stopB : RawWaypoint :=
  mkRawWaypoint (Some "wb"%string)
    (mkCoords (Some (int 2)) None (Some (int 2)) None None) None
    (Some 200) None.
Definition trip1 : Trip := mkTrip (Some "trip1"%string) (Some [stopA; stopB]).

Definition tripServer : Network :=
  mkNetwork (fun _ => None) (fun _ => Some trip1).

End Sample.

(** * Properties *)

(** ** Facts about [Map] *)

Section JSMapFacts.
Context {V : Type}.
Implicit Types (m : JSMap.t V) (k : string) (v : V).

Lemma has_cons k k' v m :
  JSMap.has k ((k', v) :: m) = String.eqb k k' || JSMap.has k m.
Proof.
  unfold JSMap.has; simpl. destruct (String.eqb k k'); reflexivity.
Qed.

Lemma has_set_same k v m : JSMap.has k (JSMap.set k v m) = true.
Proof.
  induction m as [|[k' v'] m IH]; simpl.
  - rewrite has_cons, String.eqb_refl. reflexivity.
  - destruct (String.eqb k k') eqn:E; rewrite has_cons.
    + rewrite String.eqb_refl. reflexivity.
    + rewrite E, IH. reflexivity.
Qed.

Lemma has_set_keeps k k' v m :
  JSMap.has k m = true -> JSMap.has k (JSMap.set k' v m) = true.
Proof.
  induction m as [|[k0 v0] m IH]; simpl; intros H.
  - discriminate H.
  - rewrite has_cons in H.
    destruct (String.eqb_spec k' k0) as [->|N]; rewrite has_cons.
    + exact H.
    + destruct (String.eqb k k0); [reflexivity|]. simpl in *. auto.
Qed.

Lemma set_set k v v' m :
  JSMap.set k v (JSMap.set k v' m) = JSMap.set k v m.
Proof.
  induction m as [|[k0 v0] m IH]; simpl.
  - rewrite String.eqb_refl. reflexivity.
  - destruct (String.eqb k k0) eqn:E; simpl.
    + rewrite String.eqb_refl. reflexivity.
    + rewrite E, IH. reflexivity.
Qed.

(** Two writes to different keys commute once the first key is in the
    map: neither write then moves an entry. *)
Lemma set_comm k k' v v' m :
  k <> k' -> JSMap.has k m = true ->
  JSMap.set k v (JSMap.set k' v' m) = JSMap.set k' v' (JSMap.set k v m).
Proof.
  intros N. induction m as [|[k0 v0] m IH]; simpl; intros H.
  - discriminate H.
  - rewrite has_cons in H.
    destruct (String.eqb_spec k k0) as [->|Nk];
      destruct (String.eqb_spec k' k0) as [->|Nk']; simpl.
    + congruence.
    + rewrite String.eqb_refl.
      destruct (String.eqb_spec k' k0); [congruence|reflexivity].
    + rewrite String.eqb_refl.
      destruct (String.eqb_spec k k0); [congruence|reflexivity].
    + destruct (String.eqb_spec k k0); [congruence|].
      destruct (String.eqb_spec k' k0); [congruence|].
      simpl in H. rewrite IH by exact H. reflexivity.
Qed.

End JSMapFacts.

(** ** Facts about merging a page *)

Section MergeFacts.
Context {V : Type} (key : V -> string).
Implicit Types (m : JSMap.t V) (page : list V).

Lemma mergeWith_cons m w page :
  mergeWith key m (w :: page) = mergeWith key (JSMap.set (key w) w m) page.
Proof. reflexivity. Qed.

Lemma mergeWith_has_keeps page : forall m k,
  JSMap.has k m = true -> JSMap.has k (mergeWith key m page) = true.
Proof.
  induction page as [|u page IH]; intros m k H; [exact H|].
  rewrite mergeWith_cons. apply IH, has_set_keeps, H.
Qed.

(** A write that the page overwrites later leaves no trace. *)
Lemma mergeWith_overwritten page : forall m k v,
  JSMap.has k m = true -> In k (map key page) ->
  mergeWith key (JSMap.set k v m) page = mergeWith key m page.
Proof.
  induction page as [|w page IH]; intros m k v Hk Hin.
  - destruct Hin.
  - rewrite !mergeWith_cons.
    destruct (string_dec (key w) k) as [<-|N].
    + rewrite set_set. reflexivity.
    + destruct Hin as [E|Hin]; [congruence|].
      rewrite <- (set_comm k (key w) v w m) by congruence.
      apply IH; [apply has_set_keeps; exact Hk | exact Hin].
Qed.

(** A write to a key that the page does not touch can be done last. *)
Lemma mergeWith_untouched page : forall m k v,
  JSMap.has k m = true -> ~ In k (map key page) ->
  mergeWith key (JSMap.set k v m) page = JSMap.set k v (mergeWith key m page).
Proof.
  induction page as [|w page IH]; intros m k v Hk Hin.
  - reflexivity.
  - rewrite !mergeWith_cons.
    assert (N : key w <> k) by (intros E; apply Hin; left; exact E).
    rewrite <- (set_comm k (key w) v w m) by congruence.
    apply IH; [apply has_set_keeps; exact Hk|].
    intros H; apply Hin; right; exact H.
Qed.

Lemma mergeWith_idempotent page : forall m,
  mergeWith key (mergeWith key m page) page = mergeWith key m page.
Proof.
  induction page as [|w page IH]; intros m.
  - reflexivity.
  - rewrite (mergeWith_cons m w page).
    set (n := JSMap.set (key w) w m).
    assert (Hn : JSMap.has (key w) n = true) by apply has_set_same.
    rewrite mergeWith_cons.
    destruct (in_dec string_dec (key w) (map key page)) as [Hin|Hout].
    + rewrite mergeWith_overwritten; [apply IH| |exact Hin].
      apply mergeWith_has_keeps, Hn.
    + rewrite <- mergeWith_untouched by assumption.
      unfold n at 1. rewrite set_set. fold n. apply IH.
Qed.

End MergeFacts.

(** ** The viewport filters *)

Lemma num_leb_le a b : JS.leb a b = true <-> JS.le a b.
Proof. unfold JS.leb, JS.le. apply Z.leb_le. Qed.

Lemma inViewport_spec south north west east w :
  inViewport south north west east w = true <->
  spec_inViewport south north west east w.
Proof.
  unfold inViewport, spec_inViewport, JS.geb.
  rewrite !andb_true_iff, !num_leb_le. tauto.
Qed.

(** What [updateMapBounds] stores is not what [visibleWaypoints] reads:
    after a bounds update the explore list is the whole collection. *)
Lemma visibleWaypoints_after_updateMapBounds allWaypoints b old :
  ExploreScreen.visibleWaypoints allWaypoints
    (ExploreScreen.updateMapBounds (Some b) old)
  = JSMap.values allWaypoints.
Proof. reflexivity. Qed.

(** [getCurrentBounds] orders the corners: south is not above north
    and west is not beyond east. *)
Lemma leb_min_max a b : JS.leb (JS.min a b) (JS.max a b) = true.
Proof.
  unfold JS.min, JS.max. destruct (JS.leb a b) eqn:E; [exact E|].
  unfold JS.leb in *. apply Z.leb_le. apply Z.leb_gt in E. lia.
Qed.

Lemma getCurrentBounds_ordered visible b :
  MapView.getCurrentBounds visible = Some b ->
  JS.leb (ll_lat (b_sw b)) (ll_lat (b_ne b)) = true /\
  JS.leb (ll_lon (b_sw b)) (ll_lon (b_ne b)) = true.
Proof.
  destruct visible as [[[swLon swLat] [neLon neLat]]|]; simpl;
    [|discriminate].
  intros H. injection H as <-. simpl. split; apply leb_min_max.
Qed.

(** The specification's scenario on the explore filter: of the records
    at (45, 5), (60, 5) and (45, -5), only the first is inside
    north 50, south 40, east 10, west 0. *)
Example explore_scenario :
  ExploreScreen.visibleWaypoints
    (merge JSMap.empty
       [Sample.inside; Sample.outsideNorth; Sample.outsideWest])
    (ExploreScreen.BoundsCorners (Some (JS.ofZ 10, JS.ofZ 50))
                                 (Some (JS.ofZ 0, JS.ofZ 40)))
  = [Sample.inside].
Proof. reflexivity. Qed.

(** C1, as amended.  A record of the collection is in the output of the
    explore filter, for bounds held as [{ne, sw}] corners, exactly when
    its latitude is within [south, north] and its longitude within
    [west, east], ends included; the journal filter obeys the same rule
    when none of the four bound coordinates is zero. *)
Theorem viewport_filter_correct :
  (forall allWaypoints ne sw r,
      In r (JSMap.values allWaypoints) ->
      (In r (ExploreScreen.visibleWaypoints allWaypoints
               (ExploreScreen.BoundsCorners (Some ne) (Some sw)))
       <-> spec_inViewport (snd sw) (snd ne) (fst sw) (fst ne) r))
  /\
  (forall waypoints bounds visible r,
      In r waypoints ->
      JS.isZero (ll_lat (b_sw bounds)) = false ->
      JS.isZero (ll_lon (b_sw bounds)) = false ->
      JS.isZero (ll_lat (b_ne bounds)) = false ->
      JS.isZero (ll_lon (b_ne bounds)) = false ->
      (In r (JournalScreen.updateVisibleEntries
               (JournalScreen.Reply (Some bounds)) (Some waypoints) visible)
       <-> spec_inViewport (ll_lat (b_sw bounds)) (ll_lat (b_ne bounds))
             (ll_lon (b_sw bounds)) (ll_lon (b_ne bounds)) r)).
Proof.
  split.
  - intros allWaypoints ne sw r Hin. simpl.
    rewrite filter_In, inViewport_spec. tauto.
  - intros waypoints bounds visible r Hin Z1 Z2 Z3 Z4.
    unfold JournalScreen.updateVisibleEntries, JS.truthy.
    rewrite Z1, Z2, Z3, Z4.
    destruct waypoints as [|x rest]; [destruct Hin|].
    cbn [List.length Nat.ltb Nat.leb negb andb].
    rewrite filter_In, inViewport_spec. tauto.
Qed.

Lemma viewport_filter_correct_witness :
  In Sample.inside
     (JournalScreen.updateVisibleEntries
        (JournalScreen.Reply (Some Sample.offAxisBounds))
        (Some [Sample.inside; Sample.outsideNorth; Sample.outsideWest]) [])
  <-> spec_inViewport (JS.ofZ 40) (JS.ofZ 50) (JS.ofZ 1) (JS.ofZ 10)
        Sample.inside.
Proof.
  apply (proj2 viewport_filter_correct
           [Sample.inside; Sample.outsideNorth; Sample.outsideWest]
           Sample.offAxisBounds [] Sample.inside);
    [left; reflexivity | reflexivity ..].
Defined.

(** C1, as stated, fails in the journal screen on the viewport of the
    specification's own scenario (west is 0): the record north of the
    viewport is still listed. *)
Lemma viewport_filter_counterexample :
  In Sample.outsideNorth
     (JournalScreen.updateVisibleEntries
        (JournalScreen.Reply (Some Sample.scenarioBounds))
        (Some [Sample.inside; Sample.outsideNorth; Sample.outsideWest]) [])
  /\ ~ spec_inViewport (JS.ofZ 40) (JS.ofZ 50) (JS.ofZ 0) (JS.ofZ 10)
         Sample.outsideNorth.
Proof.
  split.
  - right; left; reflexivity.
  - intros [[_ H] _]. apply num_leb_le in H. discriminate H.
Qed.

(** C9.  In the journal screen, when one of the four bound coordinates
    is exactly zero, [updateVisibleEntries] lists every waypoint, inside
    the viewport or not. *)
Theorem zero_bound_lists_everything waypoints bounds visible :
  JS.isZero (ll_lat (b_sw bounds)) || JS.isZero (ll_lon (b_sw bounds)) ||
  JS.isZero (ll_lat (b_ne bounds)) || JS.isZero (ll_lon (b_ne bounds))
  = true ->
  JournalScreen.updateVisibleEntries
    (JournalScreen.Reply (Some bounds)) (Some waypoints) visible
  = waypoints.
Proof.
  intros H. unfold JournalScreen.updateVisibleEntries, JS.truthy.
  destruct (JS.isZero (ll_lat (b_sw bounds))),
           (JS.isZero (ll_lon (b_sw bounds))),
           (JS.isZero (ll_lat (b_ne bounds))),
           (JS.isZero (ll_lon (b_ne bounds)));
    try discriminate H; cbn [negb andb];
    rewrite ?andb_false_r; reflexivity.
Qed.

Lemma zero_bound_lists_everything_witness :
  JournalScreen.updateVisibleEntries
    (JournalScreen.Reply (Some Sample.scenarioBounds))
    (Some [Sample.inside; Sample.outsideNorth; Sample.outsideWest]) []
  = [Sample.inside; Sample.outsideNorth; Sample.outsideWest].
Proof.
  apply (zero_bound_lists_everything
           [Sample.inside; Sample.outsideNorth; Sample.outsideWest]
           Sample.scenarioBounds []).
  reflexivity.
Defined.

(** The same viewport moved off the prime meridian filters as the
    specification's scenario expects. *)
Example offAxis_scenario :
  JournalScreen.updateVisibleEntries
    (JournalScreen.Reply (Some Sample.offAxisBounds))
    (Some [Sample.inside; Sample.outsideNorth; Sample.outsideWest]) []
  = [Sample.inside].
Proof. reflexivity. Qed.

(** ** The merged collection *)

(** C2.  Merging a page a second time changes nothing: the collection
    has the same entries in the same order.  The merge effects of both
    screens inherit this. *)
Theorem merge_idempotent :
  forall (C : JSMap.t Waypoint) (P : list Waypoint),
    merge (merge C P) P = merge C P /\
    ExploreScreen.mergeEffect (Some P) (ExploreScreen.mergeEffect (Some P) C)
    = ExploreScreen.mergeEffect (Some P) C /\
    JournalScreen.mergeEffect P (JournalScreen.mergeEffect P C)
    = JournalScreen.mergeEffect P C.
Proof.
  intros C P. unfold ExploreScreen.mergeEffect, JournalScreen.mergeEffect.
  assert (H : merge (merge C P) P = merge C P)
    by apply mergeWith_idempotent.
  repeat split; try exact H.
  destruct (0 <? List.length P)%nat; [exact H | reflexivity].
Qed.

(** The specification's scenario: the same post fetched twice, the
    second time with five likes. *)
Example merge_scenario :
  let first := Sample.entry "a" (JS.ofZ 10) (JS.ofZ 20) 0 in
  let second := Sample.entry "a" (JS.ofZ 10) (JS.ofZ 20) 5 in
  merge (merge JSMap.empty [first]) [second] = [("a"%string, second)].
Proof. reflexivity. Qed.

(** C4, as amended.  The key is the post's id when the waypoint has a
    post with a non-empty id; otherwise it is the latitude and the
    longitude as they are, joined by an underscore. *)
Theorem stableKey_cases w :
  (forall id, postId w = Some id -> id <> EmptyString -> stableKey w = id) /\
  (JS.truthyStr (postId w) = false -> stableKey w = coordKey w) /\
  coordKey w =
  String.append (JS.toString (w_lat w)) (String "_" (JS.toString (w_lon w))).
Proof.
  unfold stableKey. repeat split.
  - intros id E N. rewrite E. simpl.
    destruct (String.eqb_spec id EmptyString); [contradiction | reflexivity].
  - intros H. destruct (postId w) as [id|]; [|reflexivity].
    rewrite H. reflexivity.
Qed.

Lemma stableKey_cases_witness :
  stableKey (Sample.entry "a" (JS.ofZ 10) (JS.ofZ 20) 5) = "a"%string /\
  stableKey (Sample.bare (Sample.dec 105 1) (Sample.dec 2025 2))
  = "10.5_20.25"%string.
Proof.
  split.
  - apply (proj1 (stableKey_cases
                    (Sample.entry "a" (JS.ofZ 10) (JS.ofZ 20) 5)) "a"%string);
      [reflexivity | discriminate].
  - rewrite (proj1 (proj2 (stableKey_cases
                    (Sample.bare (Sample.dec 105 1) (Sample.dec 2025 2))))
               eq_refl).
    reflexivity.
Defined.

(** C4, as stated, fails: the coordinates in the key are not rounded. *)
Lemma stableKey_counterexample :
  stableKey (Sample.bare (Sample.dec 105 1) (Sample.dec 2025 2))
  <> spec_identity (Sample.bare (Sample.dec 105 1) (Sample.dec 2025 2)).
Proof. discriminate. Qed.

(** ** Coordinate normalisation *)

Section FallbackFacts.

Lemma orZero_falsy x : JS.truthyNum x = false -> JS.orZero x = JS.zero.
Proof.
  destruct x as [n|]; simpl; [|reflexivity].
  intros ->. reflexivity.
Qed.

(** Once a coordinate is found, no later level is read. *)
Lemma fallback_found ls : forall cur,
  JS.truthyNum (fst cur) || JS.truthyNum (snd cur) = true ->
  fold_left fallback ls cur = cur.
Proof.
  induction ls as [|l ls IH]; intros cur H; [reflexivity|].
  simpl. unfold fallback at 2.
  apply orb_true_iff in H.
  destruct (JS.truthyNum (fst cur)) eqn:E1;
    destruct (JS.truthyNum (snd cur)) eqn:E2; simpl;
    try (apply IH; rewrite E1, E2; reflexivity).
  destruct H; discriminate.
Qed.

(** While nothing is found, the levels are read in order and the first
    with a coordinate decides. *)
Lemma fallback_search ls : forall cur,
  JS.truthyNum (fst cur) = false -> JS.truthyNum (snd cur) = false ->
  settled (fold_left fallback ls cur) =
  match find hasEither ls with
  | Some level => coordsAt level
  | None => (JS.zero, JS.zero)
  end.
Proof.
  induction ls as [|l ls IH]; intros cur E1 E2.
  - unfold settled; simpl. rewrite !orZero_falsy by assumption. reflexivity.
  - simpl. unfold fallback at 2. rewrite E1, E2. simpl.
    destruct l as [c|]; simpl; [|apply IH; assumption].
    destruct (JS.truthyNum (latOf c)) eqn:L;
      destruct (JS.truthyNum (lonOf c)) eqn:O; simpl;
      try (rewrite fallback_found by (simpl; rewrite L, O; reflexivity);
           reflexivity).
    apply IH; assumption.
Qed.

End FallbackFacts.

Lemma find_agree {A : Type} (f g : A -> bool) (l : list A) :
  (forall x, In x l -> f x = g x) -> find f l = find g l.
Proof.
  induction l as [|x l IH]; intros H; [reflexivity|].
  simpl. rewrite (H x) by (left; reflexivity).
  destruct (g x); [reflexivity|].
  apply IH. intros y Hy. apply H. right; exact Hy.
Qed.

(** C8, as amended.  The bookmarks normaliser reads the top level, then
    [waypoint], then [location], then [coordinates], each with the
    aliases [lat]/[latitude] and [lon]/[lng]/[longitude]; the first of
    them that has at least one non-null, non-zero coordinate gives both
    coordinates, the one it lacks being 0; with no such level both are
    0.  When every level holds both coordinates or none, this is the
    first non-null, non-zero pair. *)
Theorem waypointData_coords post :
  let w := BookmarksScreen.toWaypoint post in
  (w_lat w, w_lon w) =
  match find hasEither (levels post) with
  | Some level => coordsAt level
  | None => (JS.zero, JS.zero)
  end
  /\
  ((forall level, In level (levels post) -> hasEither level = isPair level) ->
   (w_lat w, w_lon w) = spec_coords post).
Proof.
  cbv zeta.
  assert (H : (w_lat (BookmarksScreen.toWaypoint post),
               w_lon (BookmarksScreen.toWaypoint post)) =
              match find hasEither (levels post) with
              | Some level => coordsAt level
              | None => (JS.zero, JS.zero)
              end).
  { change (w_lat (BookmarksScreen.toWaypoint post),
            w_lon (BookmarksScreen.toWaypoint post))
      with (settled (fold_left fallback
                       [p_waypoint post; p_location post; p_coordinates post]
                       (latOf (p_coords post), lonOf (p_coords post)))).
    unfold levels. cbn [find hasEither].
    destruct (JS.truthyNum (latOf (p_coords post))) eqn:L;
      destruct (JS.truthyNum (lonOf (p_coords post))) eqn:O; cbn [orb];
      try (rewrite fallback_found by (simpl; rewrite L, O; reflexivity);
           reflexivity).
    apply fallback_search; assumption. }
  split; [exact H|].
  intros Hp. rewrite H. unfold spec_coords.
  rewrite (find_agree hasEither isPair (levels post) Hp). reflexivity.
Qed.

Lemma waypointData_coords_witness :
  let w := BookmarksScreen.toWaypoint Sample.nestedPair in
  (w_lat w, w_lon w) = (Sample.dec 485 1, Sample.dec 23 1) /\
  (w_lat w, w_lon w) = spec_coords Sample.nestedPair.
Proof.
  cbv zeta. split; [reflexivity|].
  apply (proj2 (waypointData_coords Sample.nestedPair)).
  intros level [<-|[<-|[<-|[<-|[]]]]]; reflexivity.
Defined.

(** C8, as stated, fails on a bookmark with a latitude alone at the top
    level and a full pair under [location]: the code keeps the
    latitude, sets the longitude to 0 and never reads [location]. *)
Lemma waypointData_counterexample :
  let w := BookmarksScreen.toWaypoint Sample.halfPair in
  (w_lat w, w_lon w) = (JS.ofZ 5, JS.ofZ 0) /\
  spec_coords Sample.halfPair = (JS.ofZ 7, JS.ofZ 8) /\
  (w_lat w, w_lon w) <> spec_coords Sample.halfPair.
Proof.
  cbv zeta. repeat split. discriminate.
Qed.

(** The journal normaliser reads the top level and [location] only. *)
Lemma userWaypoints_coords post :
  let w := JournalScreen.toWaypoint post in
  (w_lat w, w_lon w) =
  match find hasEither [Some (p_coords post); p_location post] with
  | Some level => coordsAt level
  | None => (JS.zero, JS.zero)
  end.
Proof.
  cbv zeta.
  change (w_lat (JournalScreen.toWaypoint post),
          w_lon (JournalScreen.toWaypoint post))
    with (settled (fold_left fallback [p_location post]
                     (latOf (p_coords post), lonOf (p_coords post)))).
  cbn [find hasEither].
  destruct (JS.truthyNum (latOf (p_coords post))) eqn:L;
    destruct (JS.truthyNum (lonOf (p_coords post))) eqn:O; cbn [orb];
    try (rewrite fallback_found by (simpl; rewrite L, O; reflexivity);
         reflexivity).
  apply fallback_search; assumption.
Qed.

(** ** Journey mode *)

Section SortFacts.
Import JournalScreen.

Lemma insertSorted_perm {A : Type} (cmp : A -> A -> Z) x l :
  Permutation (x :: l) (insertSorted cmp x l).
Proof.
  induction l as [|y l IH]; simpl; [reflexivity|].
  destruct (cmp x y <=? 0); [reflexivity|].
  rewrite perm_swap. constructor. exact IH.
Qed.

Lemma sort_perm {A : Type} (cmp : A -> A -> Z) l :
  Permutation l (sort cmp l).
Proof.
  induction l as [|x l IH]; simpl; [constructor|].
  rewrite <- insertSorted_perm. constructor. exact IH.
Qed.

Lemma insertSorted_hd x y l :
  ascending y x -> HdRel ascending y l ->
  HdRel ascending y (insertSorted compareDates x l).
Proof.
  intros Hyx H. destruct l as [|z l]; simpl; [constructor; exact Hyx|].
  destruct (compareDates x z <=? 0); constructor; [exact Hyx|].
  inversion H; assumption.
Qed.

Lemma insertSorted_sorted x l :
  Sorted ascending l -> Sorted ascending (insertSorted compareDates x l).
Proof.
  induction l as [|y l IH]; simpl; intros H.
  - repeat constructor.
  - destruct (Z.leb_spec (compareDates x y) 0) as [L|G].
    + constructor; [exact H|]. constructor.
      unfold ascending, compareDates in *. lia.
    + inversion H as [|? ? Hs Hh]; subst.
      constructor; [apply IH; exact Hs|].
      apply insertSorted_hd; [|exact Hh].
      unfold ascending, compareDates in *. lia.
Qed.

Lemma sort_sorted l : Sorted ascending (sort compareDates l).
Proof.
  induction l as [|x l IH]; simpl; [constructor|].
  apply insertSorted_sorted, IH.
Qed.

Lemma ascending_trans : Relations_1.Transitive ascending.
Proof. intros a b c; unfold ascending; lia. Qed.

End SortFacts.

(** C5, as amended.  The waypoints that [enterJourneyMode] stores are
    the transformed waypoints of the trip in ascending order of their
    effective date, which is the waypoint's own date if it has one,
    else the date of its post, else 0. *)
Theorem journey_waypoints_sorted net journey s :
  let fullTrip := getTripById net (t_id journey) in
  let ws :=
    JournalScreen.journeyWaypoints
      (JournalScreen.journeyLoaded net journey s) in
  StronglySorted JournalScreen.ascending ws /\
  Permutation
    (map JournalScreen.transform (JournalScreen.loadedWaypoints net fullTrip))
    ws /\
  (forall rw,
      JournalScreen.sortTime (JournalScreen.transform rw) =
      match rw_date rw with
      | Some own => own
      | None =>
          match JournalScreen.rawPostDate rw with
          | Some posted => posted
          | None => 0
          end
      end).
Proof.
  cbv zeta.
  assert (E : JournalScreen.journeyWaypoints
                (JournalScreen.journeyLoaded net journey s)
              = JournalScreen.sortedWaypoints net
                  (getTripById net (t_id journey))).
  { unfold JournalScreen.journeyLoaded.
    destruct (getTripById net (t_id journey)); reflexivity. }
  rewrite E. unfold JournalScreen.sortedWaypoints. repeat split.
  - apply Sorted_StronglySorted; [exact ascending_trans | apply sort_sorted].
  - apply sort_perm.
  - intros rw. unfold JournalScreen.sortTime, JournalScreen.transform,
      JournalScreen.rawPostDate; simpl.
    destruct (rw_date rw); simpl; [reflexivity|].
    destruct (rw_post rw) as [p|]; simpl; [|reflexivity].
    destruct (p_date p); reflexivity.
Qed.

(** C5, as stated, fails on a trip whose first waypoint has its own
    date 100 and a post dated 300 and whose second has the date 200:
    the stored order is first, second, which descends from 300 to 200
    when the post's date comes first, whatever the time of the fetch. *)
Lemma journey_counterexample :
  let ws :=
    JournalScreen.journeyWaypoints
      (JournalScreen.journeyLoaded Sample.tripServer Sample.trip1
         JournalScreen.initial) in
  map w_id ws = [Some "wa"%string; Some "wb"%string] /\
  ~ exists fetchedAt, Sorted (spec_ascending fetchedAt) ws.
Proof.
  cbv zeta. split; [reflexivity|].
  intros [fetchedAt H].
  inversion H as [|? ? _ Hh]; subst.
  inversion Hh as [|? ? Hle]; subst.
  cbv in Hle. apply Hle. reflexivity.
Qed.

(** ** The list under the journal map *)

Section ListFacts.
Context {A : Type}.

Lemma findIndex_find (f : A -> bool) (l : list A) (r : A) :
  find f l = Some r ->
  0 <= JournalScreen.findIndex f l /\
  nth_error l (Z.to_nat (JournalScreen.findIndex f l)) = Some r.
Proof.
  induction l as [|x l IH]; simpl; [discriminate|].
  destruct (f x); intros H.
  - injection H as <-. split; [lia | reflexivity].
  - destruct (IH H) as [Hpos Hnth].
    destruct (Z.ltb_spec (JournalScreen.findIndex f l) 0) as [N|_];
      [lia|].
    split; [lia|].
    replace (Z.to_nat (JournalScreen.findIndex f l + 1))
      with (S (Z.to_nat (JournalScreen.findIndex f l))) by lia.
    exact Hnth.
Qed.

Lemma removeAt_perm (l : list A) : forall n x,
  nth_error l n = Some x -> Permutation l (x :: removeAt n l).
Proof.
  induction l as [|y l IH]; intros [|n] x H; simpl in *;
    try discriminate.
  - injection H as ->. reflexivity.
  - rewrite perm_swap. constructor. apply IH, H.
Qed.

Lemma nth_error_snoc (l : list A) (t : A) :
  nth_error (l ++ [t]) (List.length l) = Some t.
Proof. induction l as [|y l IH]; simpl; [reflexivity | exact IH]. Qed.

Lemma removeAt_snoc (l : list A) (t : A) :
  removeAt (List.length l) (l ++ [t]) = l.
Proof.
  induction l as [|y l IH]; simpl; [reflexivity|]. rewrite IH. reflexivity.
Qed.

End ListFacts.

(** C7, as amended.  In the journal screen, when the list on show has a
    record that the selection rule of the code accepts (the same post id
    when both have a post, the same waypoint id when neither has), the
    first such record is at index 0 of [entriesToDisplay], and the
    output has the records of the list on show, no more and no fewer. *)
Theorem selected_entry_promoted s sel r :
  JournalScreen.selectedEntry s = Some sel ->
  find (JournalScreen.isSelected sel) (JournalScreen.shownEntries s)
  = Some r ->
  nth_error (JournalScreen.entriesToDisplay s) 0 = Some r /\
  Permutation (JournalScreen.shownEntries s)
    (JournalScreen.entriesToDisplay s).
Proof.
  intros Hsel Hfind. unfold JournalScreen.entriesToDisplay. rewrite Hsel.
  cbv zeta.
  destruct (findIndex_find _ _ _ Hfind) as [Hpos Hnth].
  remember (JournalScreen.shownEntries s) as l eqn:El. clear El.
  remember (JournalScreen.findIndex (JournalScreen.isSelected sel) l)
    as i eqn:Ei. clear Ei.
  assert (Hlen : (0 <? List.length l)%nat = true)
    by (destruct l; [discriminate Hfind | reflexivity]).
  rewrite Hlen.
  destruct (Z.ltb_spec 0 i) as [G|L].
  - rewrite Hnth. split; [reflexivity|].
    apply removeAt_perm, Hnth.
  - replace i with 0 in Hnth by lia. split; [exact Hnth | reflexivity].
Qed.

Lemma selected_entry_promoted_witness :
  let s :=
    JournalScreen.handleEntryPress (Sample.entry "b" (JS.ofZ 2) (JS.ofZ 2) 0)
      (JournalScreen.setVisibleEntries
         [Sample.entry "a" (JS.ofZ 1) (JS.ofZ 1) 0;
          Sample.entry "b" (JS.ofZ 2) (JS.ofZ 2) 0]
         JournalScreen.initial) in
  nth_error (JournalScreen.entriesToDisplay s) 0
  = Some (Sample.entry "b" (JS.ofZ 2) (JS.ofZ 2) 0).
Proof.
  cbv zeta.
  apply (selected_entry_promoted _
           (Sample.entry "b" (JS.ofZ 2) (JS.ofZ 2) 0)
           (Sample.entry "b" (JS.ofZ 2) (JS.ofZ 2) 0));
    reflexivity.
Defined.

(** C7, as stated, fails.  In the journal screen two waypoints without a
    post and without an id pass the selection rule for one another: with
    the second selected, the first stays at index 0.  In the explore
    screen the list is the filter output as it is, whatever is
    selected. *)
Lemma selected_entry_counterexample :
  let a := Sample.bare (JS.ofZ 1) (JS.ofZ 1) in
  let b := Sample.bare (JS.ofZ 2) (JS.ofZ 2) in
  let journal :=
    JournalScreen.handleEntryPress b
      (JournalScreen.setVisibleEntries [a; b] JournalScreen.initial) in
  let explore :=
    ExploreScreen.handleWaypointPress b false ExploreScreen.initial in
  (JournalScreen.selectedEntry journal = Some b /\
   In b (JournalScreen.entriesToDisplay journal) /\
   stableKey a <> stableKey b /\
   nth_error (JournalScreen.entriesToDisplay journal) 0 <> Some b)
  /\
  (ExploreScreen.selectedWaypoint explore = Some b /\
   nth_error
     (ExploreScreen.visibleWaypoints (merge JSMap.empty [a; b])
        ExploreScreen.BoundsNull) 0 <> Some b).
Proof.
  cbv zeta. repeat split; try discriminate.
  right; left; reflexivity.
Qed.

(** ** The drawer *)

(** The task started last is delivered by its position. *)
Lemma explore_deliver_started net t s n :
  n = List.length (ExploreScreen.pending s) ->
  ExploreScreen.deliver net n (ExploreScreen.start t s)
  = ExploreScreen.complete net t s.
Proof.
  intros ->. unfold ExploreScreen.deliver, ExploreScreen.start. simpl.
  rewrite nth_error_snoc, removeAt_snoc. destruct s; reflexivity.
Qed.

Lemma journal_deliver_started net t s n :
  n = List.length (JournalScreen.pending s) ->
  JournalScreen.deliver net n (JournalScreen.start t s)
  = JournalScreen.render (JournalScreen.complete net t s).
Proof.
  intros ->. unfold JournalScreen.deliver, JournalScreen.start. simpl.
  rewrite nth_error_snoc, removeAt_snoc. destruct s; reflexivity.
Qed.

(** The auto-exit effect does not touch the drawer. *)
Lemma autoExit_drawerState s :
  JournalScreen.drawerState (JournalScreen.autoExit s)
  = JournalScreen.drawerState s.
Proof.
  unfold JournalScreen.autoExit.
  destruct (_ && _ && _); reflexivity.
Qed.

Lemma autoExit_pending s :
  JournalScreen.pending (JournalScreen.autoExit s) = JournalScreen.pending s.
Proof.
  unfold JournalScreen.autoExit.
  destruct (_ && _ && _); reflexivity.
Qed.

Lemma autoExit_isLoadingExpanded s :
  JournalScreen.isLoadingExpanded (JournalScreen.autoExit s)
  = JournalScreen.isLoadingExpanded s.
Proof.
  unfold JournalScreen.autoExit.
  destruct (_ && _ && _); reflexivity.
Qed.

Lemma autoExit_start t s :
  JournalScreen.autoExit (JournalScreen.start t s)
  = JournalScreen.start t (JournalScreen.autoExit s).
Proof.
  unfold JournalScreen.autoExit. simpl.
  destruct (_ && _ && _); reflexivity.
Qed.

Lemma autoExit_cases s :
  JournalScreen.autoExit s = s \/
  JournalScreen.autoExit s = JournalScreen.exitJourneyMode s.
Proof.
  unfold JournalScreen.autoExit.
  destruct (_ && _ && _); [right | left]; reflexivity.
Qed.

(** C3.  From the collapsed drawer on an item with a post id, when the
    detail fetch started by the expansion rejects, the drawer ends
    expanded on that item with the item itself as the detail; it is not
    loading, and nothing stays in flight.  This holds in the explore
    screen and in the journal screen. *)
Theorem expand_falls_back_to_preview net :
  (forall s w id,
      ExploreScreen.drawerState s = ExploreScreen.Collapsed w ->
      postId w = Some id -> JS.truthyStr (Some id) = true ->
      getPostById net id = None ->
      let n := List.length (ExploreScreen.pending s) in
      let loading := ExploreScreen.handleExpandDetail s in
      let final := ExploreScreen.deliver net n
                     (ExploreScreen.deliver net n loading) in
      ExploreScreen.drawerState loading = ExploreScreen.Loading w /\
      ExploreScreen.drawerState final
      = ExploreScreen.Expanded w (Some (Preview w)) /\
      ExploreScreen.isLoadingExpanded final = false /\
      ExploreScreen.pending final = ExploreScreen.pending s)
  /\
  (forall s w id,
      JournalScreen.drawerState s = JournalScreen.Collapsed w ->
      postId w = Some id -> JS.truthyStr (Some id) = true ->
      getPostById net id = None ->
      let n := List.length (JournalScreen.pending s) in
      let loading := JournalScreen.handleExpandDetail s in
      let final := JournalScreen.deliver net n
                     (JournalScreen.deliver net n loading) in
      JournalScreen.drawerState loading = JournalScreen.Loading w /\
      JournalScreen.drawerState final
      = JournalScreen.Expanded w (Some (Preview w)) /\
      JournalScreen.isLoadingExpanded final = false /\
      JournalScreen.pending final = JournalScreen.pending s).
Proof.
  split; intros s w id Hd Hid Ht Hnet; cbv zeta.
  - unfold ExploreScreen.drawerState in Hd.
    destruct (ExploreScreen.selectedWaypoint s) as [w'|] eqn:Hs;
      [|discriminate].
    destruct (ExploreScreen.shouldRenderDrawer s) eqn:Hr; [|discriminate].
    destruct (ExploreScreen.isLoadingExpanded s) eqn:Hl; [discriminate|].
    destruct (ExploreScreen.isExpanded s) eqn:He; [discriminate|].
    destruct (ExploreScreen.isClosingAnimated s) eqn:Hc; [discriminate|].
    injection Hd as ->.
    unfold ExploreScreen.handleExpandDetail. rewrite Hs, Hid, Ht.
    rewrite (explore_deliver_started net (ExploreScreen.ExpandSpring w)
               (ExploreScreen.setTranslateY 0
                  (ExploreScreen.setIsLoadingExpanded true s))
               (List.length (ExploreScreen.pending s)) eq_refl).
    cbn [ExploreScreen.complete]. rewrite Hid.
    rewrite (explore_deliver_started net (ExploreScreen.ExpandFetch w id)
               (ExploreScreen.setDrawerHeight 90
                  (ExploreScreen.setTranslateY 0
                     (ExploreScreen.setIsLoadingExpanded true s)))
               (List.length (ExploreScreen.pending s)) eq_refl).
    cbn [ExploreScreen.complete]. rewrite Hnet.
    unfold ExploreScreen.drawerState. simpl. rewrite Hs, Hr.
    repeat split.
  - unfold JournalScreen.drawerState in Hd.
    destruct (JournalScreen.selectedEntry s) as [w'|] eqn:Hs;
      [|discriminate].
    destruct (JournalScreen.shouldRenderDrawer s) eqn:Hr; [|discriminate].
    destruct (JournalScreen.isLoadingExpanded s) eqn:Hl; [discriminate|].
    destruct (JournalScreen.isExpanded s) eqn:He; [discriminate|].
    injection Hd as ->.
    unfold JournalScreen.handleExpandDetail. rewrite Hs, Hid, Ht.
    set (s1 := JournalScreen.setTranslateY 0
                 (JournalScreen.setIsLoadingExpanded true s)).
    split.
    { unfold JournalScreen.drawerState. simpl. rewrite Hs, Hr. reflexivity. }
    rewrite (journal_deliver_started net (JournalScreen.ExpandSpring w) s1
               (List.length (JournalScreen.pending s)) eq_refl).
    cbn [JournalScreen.complete]. rewrite Hid.
    unfold JournalScreen.render. rewrite autoExit_start.
    rewrite (journal_deliver_started net (JournalScreen.ExpandFetch w id)
               (JournalScreen.autoExit (JournalScreen.setDrawerHeight 90 s1))
               (List.length (JournalScreen.pending s)))
      by (rewrite autoExit_pending; reflexivity).
    cbn [JournalScreen.complete]. rewrite Hnet.
    unfold JournalScreen.render.
    rewrite autoExit_drawerState, autoExit_pending,
      autoExit_isLoadingExpanded.
    destruct (autoExit_cases (JournalScreen.setDrawerHeight 90 s1))
      as [E|E]; rewrite E;
      unfold JournalScreen.drawerState; simpl; rewrite Hs, Hr;
      repeat split.
Qed.

Lemma expand_falls_back_to_preview_witness :
  let w := Sample.entry "a" (JS.ofZ 10) (JS.ofZ 20) 5 in
  let s := ExploreScreen.handleWaypointPress w false ExploreScreen.initial in
  ExploreScreen.drawerState
    (ExploreScreen.deliver Sample.offline 1
       (ExploreScreen.deliver Sample.offline 1
          (ExploreScreen.handleExpandDetail s)))
  = ExploreScreen.Expanded w (Some (Preview w)).
Proof.
  cbv zeta.
  exact (proj1 (proj2
    (proj1 (expand_falls_back_to_preview Sample.offline)
       (ExploreScreen.handleWaypointPress
          (Sample.entry "a" (JS.ofZ 10) (JS.ofZ 20) 5) false
          ExploreScreen.initial)
       (Sample.entry "a" (JS.ofZ 10) (JS.ofZ 20) 5) "a"%string
       eq_refl eq_refl eq_refl eq_refl))).
Defined.

(** C10.  Pressing, from the list view, a waypoint without a post id
    opens the drawer expanded on that waypoint with the waypoint itself
    as the detail; the only work started is the centering timer, so no
    detail is fetched.  The same waypoint pressed on the map gives the
    collapsed drawer, from which expanding changes nothing. *)
Theorem list_press_without_post w s :
  JS.truthyStr (postId w) = false ->
  let fromList := ExploreScreen.handleWaypointPress w true s in
  let fromMap := ExploreScreen.handleWaypointPress w false s in
  (ExploreScreen.drawerState fromList
   = ExploreScreen.Expanded w (Some (Preview w)) /\
   ExploreScreen.pending fromList
   = ExploreScreen.pending s ++ [ExploreScreen.CenteringTimeout] /\
   filter ExploreScreen.isFetch (ExploreScreen.pending fromList)
   = filter ExploreScreen.isFetch (ExploreScreen.pending s))
  /\
  (ExploreScreen.drawerState fromMap = ExploreScreen.Collapsed w /\
   ExploreScreen.handleExpandDetail fromMap = fromMap).
Proof.
  intros H. cbv zeta. split.
  - assert (E : ExploreScreen.handleWaypointPress w true s =
                ExploreScreen.mkState (Some w) true true true false false
                  (Some (Preview w)) true 90 (ExploreScreen.translateY s)
                  (ExploreScreen.pending s
                     ++ [ExploreScreen.CenteringTimeout])).
    { unfold ExploreScreen.handleWaypointPress.
      destruct (postId w) as [id|]; [rewrite H|]; reflexivity. }
    rewrite E. repeat split. simpl.
    rewrite filter_app. simpl. apply app_nil_r.
  - split; [reflexivity|].
    unfold ExploreScreen.handleExpandDetail. simpl. rewrite H. reflexivity.
Qed.

Lemma list_press_without_post_witness :
  let w := Sample.bare (JS.ofZ 45) (JS.ofZ 5) in
  ExploreScreen.drawerState
    (ExploreScreen.handleWaypointPress w true ExploreScreen.initial)
  = ExploreScreen.Expanded w (Some (Preview w)).
Proof.
  cbv zeta.
  exact (proj1 (proj1
    (list_press_without_post (Sample.bare (JS.ofZ 45) (JS.ofZ 5))
       ExploreScreen.initial eq_refl))).
Defined.

(** With a post id the same press leaves the drawer loading and a fetch
    in flight. *)
Example list_press_with_post :
  let w := Sample.entry "a" (JS.ofZ 10) (JS.ofZ 20) 5 in
  let s := ExploreScreen.handleWaypointPress w true ExploreScreen.initial in
  ExploreScreen.drawerState s = ExploreScreen.Loading w /\
  filter ExploreScreen.isFetch (ExploreScreen.pending s)
  = [ExploreScreen.ListFetch w "a"].
Proof. split; reflexivity. Qed.

(** ** Leaving journey mode *)

(** The end of [enterJourneyMode] never writes [isJourneyMode]. *)
Lemma journeyLoaded_isJourneyMode net journey s :
  JournalScreen.isJourneyMode (JournalScreen.journeyLoaded net journey s)
  = JournalScreen.isJourneyMode s.
Proof.
  unfold JournalScreen.journeyLoaded.
  destruct (getTripById net (t_id journey)); reflexivity.
Qed.

Lemma autoExit_inactive s :
  JournalScreen.isJourneyMode s = false ->
  JournalScreen.isJourneyMode (JournalScreen.autoExit s) = false.
Proof.
  intros H. unfold JournalScreen.autoExit. rewrite H. exact H.
Qed.

(** C6.  [enterJourneyMode] runs up to its fetch; the tab is then
    switched to one outside entries and journeys.  After the render
    that follows the switch, journey mode is off, and it is still off
    after the pending load of the trip has been delivered, whatever the
    network answered. *)
Theorem tab_switch_ends_journey_mode net journey tab s :
  tab <> JournalScreen.entries -> tab <> JournalScreen.journeys ->
  let n := List.length (JournalScreen.pending s) in
  let entered :=
    JournalScreen.render (JournalScreen.enterJourneyMode journey s) in
  let switched :=
    JournalScreen.render (JournalScreen.handleTabChange tab entered) in
  let resolved := JournalScreen.deliver net n switched in
  JournalScreen.isJourneyMode entered = true /\
  nth_error (JournalScreen.pending switched) n
  = Some (JournalScreen.JourneyLoad journey) /\
  JournalScreen.isJourneyMode switched = false /\
  JournalScreen.isJourneyMode resolved = false.
Proof.
  intros N1 N2. cbv zeta.
  assert (Hsw :
    JournalScreen.isJourneyMode
      (JournalScreen.render
         (JournalScreen.handleTabChange tab
            (JournalScreen.render
               (JournalScreen.enterJourneyMode journey s)))) = false
    /\ JournalScreen.pending
         (JournalScreen.render
            (JournalScreen.handleTabChange tab
               (JournalScreen.render
                  (JournalScreen.enterJourneyMode journey s))))
       = JournalScreen.pending s ++ [JournalScreen.JourneyLoad journey]).
  { destruct tab; try contradiction; split; reflexivity. }
  destruct Hsw as [Hoff Hpend].
  repeat split.
  - rewrite Hpend. apply nth_error_snoc.
  - exact Hoff.
  - unfold JournalScreen.deliver. rewrite Hpend, nth_error_snoc.
    cbn [JournalScreen.complete]. unfold JournalScreen.render at 1.
    apply autoExit_inactive. rewrite journeyLoaded_isJourneyMode.
    exact Hoff.
Qed.

Lemma tab_switch_ends_journey_mode_witness :
  let entered :=
    JournalScreen.render
      (JournalScreen.enterJourneyMode Sample.trip1 JournalScreen.initial) in
  let switched :=
    JournalScreen.render
      (JournalScreen.handleTabChange JournalScreen.followers entered) in
  JournalScreen.isJourneyMode
    (JournalScreen.deliver Sample.tripServer 0 switched) = false.
Proof.
  cbv zeta.
  refine (proj2 (proj2 (proj2
    (tab_switch_ends_journey_mode Sample.tripServer Sample.trip1
       JournalScreen.followers JournalScreen.initial _ _))));
    discriminate.
Defined.

(** The late answer still fills in the journey's waypoints and puts the
    screen back on the entries tab. *)
Example late_answer_after_tab_switch :
  let entered :=
    JournalScreen.render
      (JournalScreen.enterJourneyMode Sample.trip1 JournalScreen.initial) in
  let switched :=
    JournalScreen.render
      (JournalScreen.handleTabChange JournalScreen.followers entered) in
  let resolved := JournalScreen.deliver Sample.tripServer 0 switched in
  JournalScreen.isJourneyMode resolved = false /\
  JournalScreen.activeTab resolved = JournalScreen.entries /\
  map w_id (JournalScreen.journeyWaypoints resolved)
  = [Some "wa"%string; Some "wb"%string] /\
  JournalScreen.entriesToDisplay resolved = [].
Proof. repeat split. Qed.

(** * Further properties of the screens *)

(** ** The merged collection *)

Section MapLookup.
Context {V : Type}.
Implicit Types (m : JSMap.t V) (k : string) (v : V).

Lemma get_set_same k v m : JSMap.get k (JSMap.set k v m) = Some v.
Proof.
  induction m as [|[k' v'] m IH]; simpl.
  - rewrite String.eqb_refl. reflexivity.
  - destruct (String.eqb k k') eqn:E; simpl.
    + rewrite String.eqb_refl. reflexivity.
    + rewrite E. exact IH.
Qed.

Lemma get_set_other k k' v m :
  k <> k' -> JSMap.get k (JSMap.set k' v m) = JSMap.get k m.
Proof.
  intros N. induction m as [|[k0 v0] m IH]; simpl.
  - destruct (String.eqb_spec k k'); [contradiction | reflexivity].
  - destruct (String.eqb_spec k' k0) as [->|N0]; simpl.
    + destruct (String.eqb_spec k k0); [contradiction | reflexivity].
    + rewrite IH. reflexivity.
Qed.

Lemma has_In_keys k m : JSMap.has k m = true <-> In k (JSMap.keys m).
Proof.
  induction m as [|[k' v'] m IH]; simpl.
  - split; [discriminate | contradiction].
  - rewrite has_cons, orb_true_iff, IH.
    destruct (String.eqb_spec k k') as [->|N]; split; auto.
    + intros [E|H]; [discriminate | right; exact H].
    + intros [E|H]; [congruence | right; exact H].
Qed.

Lemma keys_set k v m :
  JSMap.keys (JSMap.set k v m) =
  if JSMap.has k m then JSMap.keys m else JSMap.keys m ++ [k].
Proof.
  induction m as [|[k' v'] m IH]; simpl; [reflexivity|].
  rewrite has_cons.
  destruct (String.eqb_spec k k') as [->|N]; simpl; [reflexivity|].
  unfold JSMap.keys in *. rewrite IH.
  destruct (JSMap.has k m); reflexivity.
Qed.

Lemma In_set k v m k0 v0 :
  In (k0, v0) (JSMap.set k v m) -> (k0, v0) = (k, v) \/ In (k0, v0) m.
Proof.
  induction m as [|[k' v'] m IH]; simpl.
  - intros [E|[]]. left; symmetry; exact E.
  - destruct (String.eqb k k'); simpl.
    + intros [E|H]; [left; symmetry; exact E | right; right; exact H].
    + intros [E|H]; [right; left; exact E|].
      destruct (IH H) as [E|H']; [left; exact E | right; right; exact H'].
Qed.

End MapLookup.

Section MergeLookup.
Context {V : Type} (key : V -> string).
Implicit Types (m : JSMap.t V) (page : list V).

Lemma find_snoc (f : V -> bool) (l : list V) (x : V) :
  find f (l ++ [x]) =
  match find f l with
  | Some y => Some y
  | None => if f x then Some x else None
  end.
Proof.
  induction l as [|y l IH]; simpl; [reflexivity|].
  destruct (f y); [reflexivity | exact IH].
Qed.

Lemma mergeWith_get page : forall m k,
  JSMap.get k (mergeWith key m page) =
  match find (fun w => String.eqb (key w) k) (rev page) with
  | Some w => Some w
  | None => JSMap.get k m
  end.
Proof.
  induction page as [|w page IH]; intros m k; [reflexivity|].
  rewrite mergeWith_cons, IH. simpl rev. rewrite find_snoc.
  destruct (find _ (rev page)); [reflexivity|].
  destruct (String.eqb_spec (key w) k) as [<-|N].
  - apply get_set_same.
  - apply get_set_other. congruence.
Qed.

Lemma mergeWith_keys page : forall m,
  exists added,
    JSMap.keys (mergeWith key m page) = JSMap.keys m ++ added /\
    incl added (map key page) /\
    (NoDup (JSMap.keys m) -> NoDup (JSMap.keys m ++ added)).
Proof.
  induction page as [|w page IH]; intros m.
  - exists []. rewrite app_nil_r. repeat split; auto. intros x [].
  - rewrite mergeWith_cons.
    destruct (IH (JSMap.set (key w) w m)) as (added & E & I & D).
    rewrite keys_set in E, D.
    destruct (JSMap.has (key w) m) eqn:H.
    + exists added. repeat split; auto.
      intros x Hx. right. apply I, Hx.
    + exists (key w :: added). rewrite <- app_assoc in E, D. simpl in E, D.
      repeat split; auto.
      * intros x [<-|Hx]; [left; reflexivity | right; apply I, Hx].
      * intros N. apply D. 
        assert (Hk : ~ In (key w) (JSMap.keys m)).
        { intros Hin. apply has_In_keys in Hin. congruence. }
        clear -N Hk. induction (JSMap.keys m) as [|x l IHl]; simpl.
        -- constructor; [intros [] | constructor].
        -- inversion N; subst. constructor.
           ++ rewrite in_app_iff. intros [Hx|[<-|[]]]; [contradiction|].
              apply Hk. left; reflexivity.
           ++ apply IHl; [assumption|]. intros Hin. apply Hk. right; exact Hin.
Qed.

Lemma mergeWith_entries page : forall m k v,
  In (k, v) (mergeWith key m page) ->
  In (k, v) m \/ (In v page /\ k = key v).
Proof.
  induction page as [|w page IH]; intros m k v H; [left; exact H|].
  rewrite mergeWith_cons in H.
  destruct (IH _ _ _ H) as [H'|[H' E]].
  - destruct (In_set _ _ _ _ _ H') as [E|H''].
    + injection E as -> ->. right. split; [left; reflexivity | reflexivity].
    + left; exact H''.
  - right. split; [right; exact H' | exact E].
Qed.

End MergeLookup.

(** After a merge, a key holds the last record of the page that has
    that key; a key the page does not mention holds what it held. *)
Theorem merge_lookup (C : JSMap.t Waypoint) (P : list Waypoint) (k : string) :
  JSMap.get k (merge C P) =
  match find (fun w => String.eqb (stableKey w) k) (rev P) with
  | Some w => Some w
  | None => JSMap.get k C
  end.
Proof. apply mergeWith_get. Qed.

(** A merge leaves every key of the collection at its place in the
    iteration order and appends the new keys, which are keys of the
    page; no entry is removed. *)
Theorem merge_keeps_positions (C : JSMap.t Waypoint) (P : list Waypoint) :
  exists added,
    JSMap.keys (merge C P) = JSMap.keys C ++ added /\
    incl added (map stableKey P) /\
    (JSMap.size C <= JSMap.size (merge C P))%nat.
Proof.
  destruct (mergeWith_keys stableKey P C) as (added & E & I & _).
  exists added. repeat split; auto.
  unfold JSMap.size. 
  assert (L : List.length (JSMap.keys (merge C P))
              = List.length (JSMap.keys C ++ added))
    by (unfold merge; rewrite E; reflexivity).
  unfold JSMap.keys in L. rewrite length_app, !length_map in L. lia.
Qed.

(** A collection whose keys are distinct and whose records sit under
    their own stable key stays so through a merge, and every record
    after the merge was in the collection or in the page.  The empty
    collection is of this kind, so every collection the screens build
    is. *)
Theorem merge_keeps_invariant (C : JSMap.t Waypoint) (P : list Waypoint) :
  NoDup (JSMap.keys C) ->
  (forall k w, In (k, w) C -> k = stableKey w) ->
  NoDup (JSMap.keys (merge C P)) /\
  (forall k w, In (k, w) (merge C P) -> k = stableKey w) /\
  (forall w, In w (JSMap.values (merge C P)) ->
             In w (JSMap.values C) \/ In w P).
Proof.
  intros N K. repeat split.
  - destruct (mergeWith_keys stableKey P C) as (added & E & _ & D).
    unfold merge. rewrite E. apply D, N.
  - intros k w H. destruct (mergeWith_entries stableKey P C k w H) as [H'|[_ E]];
      [apply K, H' | exact E].
  - intros w H. unfold JSMap.values in H. apply in_map_iff in H.
    destruct H as ([k w'] & E & H). simpl in E. subst w'.
    destruct (mergeWith_entries stableKey P C k w H) as [H'|[H' _]].
    + left. unfold JSMap.values. apply in_map_iff. exists (k, w). auto.
    + right; exact H'.
Qed.

Lemma merge_keeps_invariant_witness :
  let P := [Sample.entry "a" (JS.ofZ 10) (JS.ofZ 20) 0;
            Sample.inside;
            Sample.entry "a" (JS.ofZ 10) (JS.ofZ 20) 5] in
  NoDup (JSMap.keys (merge JSMap.empty P)).
Proof.
  cbv zeta.
  refine (proj1 (merge_keeps_invariant JSMap.empty _ _ _)).
  - constructor.
  - intros k w [].
Defined.

(** ** The explore screen: bounds, list and query *)

Lemma searchStep_cornerless s e :
  ExploreScreen.cornerless (ExploreScreen.mapBounds s) = true ->
  ExploreScreen.cornerless
    (ExploreScreen.mapBounds (ExploreScreen.searchStep s e)) = true.
Proof.
  intros H. destruct e as [c b| |b| | | | | |f| |r]; simpl; try exact H.
  - unfold ExploreScreen.handleMapRegionChange.
    destruct c; [exact H|]. destruct b; [reflexivity | exact H].
  - destruct b; [reflexivity | exact H].
Qed.

Lemma searchRun_cornerless events :
  ExploreScreen.cornerless
    (ExploreScreen.mapBounds (ExploreScreen.searchRun events)) = true.
Proof.
  unfold ExploreScreen.searchRun.
  assert (G : forall s,
             ExploreScreen.cornerless (ExploreScreen.mapBounds s) = true ->
             ExploreScreen.cornerless
               (ExploreScreen.mapBounds
                  (fold_left ExploreScreen.searchStep events s)) = true).
  { induction events as [|e events IH]; intros s H; [exact H|].
    simpl. apply IH, searchStep_cornerless, H. }
  apply G. reflexivity.
Qed.

(** Whatever the user does on the explore screen, from start-up on, the
    list view holds the whole collection, inside the viewport or not,
    and a query that is made is the global one with limit 100, not one
    by bounds: the bounds are stored as an array, which neither the
    filter nor the query reads. *)
Theorem explore_never_uses_bounds events :
  let s := ExploreScreen.searchRun events in
  ExploreScreen.listData s = JSMap.values (ExploreScreen.allWaypoints s) /\
  (ExploreScreen.queryFn s = None \/
   ExploreScreen.queryFn s = Some (ExploreScreen.QueryGlobal 100)).
Proof.
  cbv zeta. pose proof (searchRun_cornerless events) as H.
  unfold ExploreScreen.listData, ExploreScreen.queryFn.
  destruct (ExploreScreen.mapBounds (ExploreScreen.searchRun events));
    try discriminate H; split; try reflexivity;
    destruct (negb _); auto; destruct (ExploreScreen.shouldShowOverlay _);
    auto.
Qed.

(** After going back to the search overlay, the collection is empty,
    the map has no markers and the query is disabled, and moving the
    map does not change that, although it may switch
    [shouldLoadWaypoints] on again. *)
Theorem back_to_search_blocks_loading s isAuthenticated moves :
  let back := ExploreScreen.handleBackToSearch s in
  let s' :=
    fold_left
      (fun st b => ExploreScreen.handleMapRegionChange false b st)
      moves back in
  ExploreScreen.shouldShowOverlay s' = true /\
  MapViewMarkers.exploreMarkers s' = [] /\
  ExploreScreen.listData s' = [] /\
  ExploreScreen.queryFn s' = None /\
  ExploreScreen.queryEnabled isAuthenticated s' = false.
Proof.
  cbv zeta.
  assert (G : forall st,
             ExploreScreen.shouldShowOverlay st = true ->
             ExploreScreen.allWaypoints st = JSMap.empty ->
             let s' :=
               fold_left
                 (fun st b => ExploreScreen.handleMapRegionChange false b st)
                 moves st in
             ExploreScreen.shouldShowOverlay s' = true /\
             ExploreScreen.allWaypoints s' = JSMap.empty).
  { induction moves as [|b moves IH]; intros st H E; [split; assumption|].
    simpl. apply IH.
    - destruct b; exact H.
    - destruct b; exact E. }
  destruct (G (ExploreScreen.handleBackToSearch s) eq_refl eq_refl)
    as [Ho Ea].
  set (s' := fold_left _ moves _) in *.
  repeat split.
  - exact Ho.
  - unfold MapViewMarkers.exploreMarkers, ExploreScreen.mapWaypoints.
    rewrite Ho. reflexivity.
  - unfold ExploreScreen.listData. rewrite Ea.
    destruct (ExploreScreen.mapBounds s') as [| |[ne|] [sw|]]; reflexivity.
  - unfold ExploreScreen.queryFn. rewrite Ho.
    destruct (negb _); reflexivity.
  - unfold ExploreScreen.queryEnabled. rewrite Ho. simpl.
    apply andb_false_r.
Qed.

(** ** The journal screen: list, markers and journey mode *)

(** [entriesToDisplay] only re-orders: it shows the records of the list
    it starts from, each as often as there, whatever is selected. *)
Theorem entriesToDisplay_reorders s :
  Permutation (JournalScreen.shownEntries s)
    (JournalScreen.entriesToDisplay s).
Proof.
  unfold JournalScreen.entriesToDisplay. cbv zeta.
  destruct (JournalScreen.selectedEntry s) as [sel|]; [|reflexivity].
  destruct (0 <? List.length (JournalScreen.shownEntries s))%nat;
    [|reflexivity].
  destruct (0 <? JournalScreen.findIndex _ _); [|reflexivity].
  destruct (nth_error _ _) as [x|] eqn:E; [|reflexivity].
  apply removeAt_perm, E.
Qed.

(** In journey mode on the entries tab the list does not depend on the
    entries in view, and the markers of the map depend neither on the
    entries in view nor on the waypoints of the map query: both come
    from the journey's waypoints alone. *)
Theorem journey_mode_is_exclusive s visible mapWaypoints mapWaypoints' :
  JournalScreen.isJourneyMode s = true ->
  (JournalScreen.activeTab s = JournalScreen.entries ->
   JournalScreen.entriesToDisplay (JournalScreen.setVisibleEntries visible s)
   = JournalScreen.entriesToDisplay s) /\
  MapViewMarkers.journalMarkers mapWaypoints
    (JournalScreen.setVisibleEntries visible s)
  = MapViewMarkers.journalMarkers mapWaypoints' s /\
  incl (MapViewMarkers.journalMarkers mapWaypoints s)
       (JournalScreen.journeyWaypoints s).
Proof.
  intros J. repeat split.
  - intros T. unfold JournalScreen.entriesToDisplay,
      JournalScreen.shownEntries. simpl. rewrite J, T. reflexivity.
  - unfold MapViewMarkers.journalMarkers. simpl. rewrite J. reflexivity.
  - unfold MapViewMarkers.journalMarkers, MapViewMarkers.renderedWaypoints.
    rewrite J.
    destruct (JournalScreen.selectedJourney s);
      [destruct (0 <? _)%nat|]; simpl;
      try (intros x []).
    intros x Hx. apply filter_In in Hx. apply Hx.
Qed.

Lemma journey_mode_is_exclusive_witness :
  let s :=
    JournalScreen.deliver Sample.tripServer 0
      (JournalScreen.render
         (JournalScreen.enterJourneyMode Sample.trip1
            JournalScreen.initial)) in
  MapViewMarkers.journalMarkers (Some [Sample.inside])
    (JournalScreen.setVisibleEntries [Sample.inside] s)
  = MapViewMarkers.journalMarkers None s.
Proof.
  cbv zeta.
  refine (proj1 (proj2 (journey_mode_is_exclusive _ _ _ _ _))).
  reflexivity.
Defined.

(** After every render, journey mode is on only on the entries tab or
    the journeys tab. *)
Theorem render_confines_journey_mode s :
  let s' := JournalScreen.render s in
  JournalScreen.isJourneyMode s' = true ->
  JournalScreen.activeTab s' = JournalScreen.entries \/
  JournalScreen.activeTab s' = JournalScreen.journeys.
Proof.
  cbv zeta. unfold JournalScreen.render, JournalScreen.autoExit.
  destruct (JournalScreen.isJourneyMode s) eqn:J;
    destruct (JournalScreen.activeTab s) eqn:T; simpl;
    rewrite ?J, ?T; auto; discriminate.
Qed.

Lemma render_confines_journey_mode_witness :
  let s' :=
    JournalScreen.render
      (JournalScreen.enterJourneyMode Sample.trip1 JournalScreen.initial) in
  JournalScreen.activeTab s' = JournalScreen.entries \/
  JournalScreen.activeTab s' = JournalScreen.journeys.
Proof.
  cbv zeta.
  apply (render_confines_journey_mode
           (JournalScreen.enterJourneyMode Sample.trip1
              JournalScreen.initial)).
  reflexivity.
Defined.

(** Pressing a marker selects the entry and shows the entries tab; in
    journey mode it does not end the journey. *)
Theorem handleEntryPress_keeps_journey entry s :
  let s' := JournalScreen.render (JournalScreen.handleEntryPress entry s) in
  JournalScreen.selectedEntry s' = Some entry /\
  JournalScreen.activeTab s' = JournalScreen.entries /\
  JournalScreen.isJourneyMode s' = JournalScreen.isJourneyMode s /\
  JournalScreen.journeyWaypoints s' = JournalScreen.journeyWaypoints s.
Proof.
  cbv zeta. unfold JournalScreen.render, JournalScreen.autoExit,
    JournalScreen.handleEntryPress.
  destruct s as [sel tab jm sj jw ex dv rd ld fd ve dh ty pe]; simpl.
  destruct jm, tab; simpl; repeat split.
Qed.

(** Enrichment changes nothing but the post of a waypoint, and a
    waypoint whose post cannot be fetched is kept as it came. *)
Lemma enrich_keeps_waypoint net rw :
  rw_id (JournalScreen.enrich net rw) = rw_id rw /\
  rw_coords (JournalScreen.enrich net rw) = rw_coords rw /\
  rw_location (JournalScreen.enrich net rw) = rw_location rw /\
  rw_date (JournalScreen.enrich net rw) = rw_date rw.
Proof.
  unfold JournalScreen.enrich.
  destruct (rw_post rw) as [p|]; [|repeat split].
  destruct (p_id p) as [id|]; [|repeat split].
  destruct (JS.truthyStr (Some id)); [|repeat split].
  destruct (getPostById net id); repeat split.
Qed.

(** Every waypoint of the trip is among the journey's waypoints,
    exactly once, under its id, whichever post fetches failed; with no
    answer for the trip the journey has no waypoints. *)
Theorem journey_keeps_every_stop net journey s :
  let ws :=
    JournalScreen.journeyWaypoints
      (JournalScreen.journeyLoaded net journey s) in
  match getTripById net (t_id journey) with
  | Some trip =>
      Permutation
        (map rw_id (match t_waypoints trip with Some l => l | None => [] end))
        (map w_id ws)
  | None => ws = []
  end.
Proof.
  cbv zeta. unfold JournalScreen.journeyLoaded.
  destruct (getTripById net (t_id journey)) as [trip|]; [|reflexivity].
  simpl. unfold JournalScreen.sortedWaypoints, JournalScreen.loadedWaypoints.
  eapply Permutation_trans;
    [|apply Permutation_map, sort_perm].
  destruct (t_waypoints trip) as [l|]; [|reflexivity].
  rewrite !map_map.
  erewrite map_ext; [reflexivity|].
  intros rw. simpl. symmetry. apply enrich_keeps_waypoint.
Qed.

(** With the map mounted, [updateVisibleEntries] lists waypoints of the
    map query only, and never leaves out one that is inside the bounds
    it was given: when it does not filter it lists them all. *)
Theorem updateVisibleEntries_fails_open reply waypoints visible :
  reply <> JournalScreen.NoMapView ->
  let out :=
    JournalScreen.updateVisibleEntries reply (Some waypoints) visible in
  incl out waypoints /\
  (forall bounds r,
      reply = JournalScreen.Reply (Some bounds) ->
      In r waypoints ->
      spec_inViewport (ll_lat (b_sw bounds)) (ll_lat (b_ne bounds))
        (ll_lon (b_sw bounds)) (ll_lon (b_ne bounds)) r ->
      In r out) /\
  (reply = JournalScreen.Threw \/ reply = JournalScreen.Reply None ->
   out = waypoints).
Proof.
  intros N. cbv zeta. unfold JournalScreen.updateVisibleEntries.
  destruct reply as [| |[bounds|]]; try contradiction; repeat split;
    try (intros x Hx; exact Hx); try discriminate;
    try (intros [E|E]; discriminate).
  - destruct (_ && _ && _ && _ && _); intros x Hx; [|exact Hx].
    apply filter_In in Hx. apply Hx.
  - intros b r E Hin Hv. injection E as <-.
    destruct (_ && _ && _ && _ && _); [|exact Hin].
    apply filter_In. split; [exact Hin|]. apply inViewport_spec, Hv.
Qed.

Lemma updateVisibleEntries_fails_open_witness :
  incl (JournalScreen.updateVisibleEntries
          (JournalScreen.Reply (Some Sample.offAxisBounds))
          (Some [Sample.inside; Sample.outsideNorth]) [])
       [Sample.inside; Sample.outsideNorth].
Proof.
  refine (proj1 (updateVisibleEntries_fails_open
                   (JournalScreen.Reply (Some Sample.offAxisBounds))
                   [Sample.inside; Sample.outsideNorth] [] _)).
  discriminate.
Defined.

(** The journal's collection never holds a waypoint with a zero
    latitude or longitude, and every waypoint in it carries the post it
    was made from: posts whose coordinates are missing, or known by
    half, are left out. *)
Theorem journal_collection_has_coordinates updates w :
  In w (JSMap.values (JournalScreen.collect updates)) ->
  JS.isZero (w_lat w) = false /\ JS.isZero (w_lon w) = false /\
  exists post, w = JournalScreen.toWaypoint post.
Proof.
  unfold JournalScreen.collect.
  assert (G : forall C,
             (forall x, In x (JSMap.values C) ->
                        JournalScreen.hasCoords x = true /\
                        exists post, x = JournalScreen.toWaypoint post) ->
             forall x,
               In x (JSMap.values
                       (fold_left
                          (fun entries userPosts =>
                             JournalScreen.mergeEffect
                               (JournalScreen.userWaypoints userPosts)
                               entries) updates C)) ->
               JournalScreen.hasCoords x = true /\
               exists post, x = JournalScreen.toWaypoint post).
  { induction updates as [|u updates IH]; intros C HC x Hx; [auto|].
    simpl in Hx. apply (IH _) in Hx; [exact Hx|].
    clear x Hx. intros x Hx. unfold JournalScreen.mergeEffect in Hx.
    destruct (0 <? _)%nat; [|auto].
    unfold JSMap.values in Hx. apply in_map_iff in Hx.
    destruct Hx as ([k x'] & E & Hx). simpl in E. subst x'.
    destruct (mergeWith_entries stableKey _ C k x Hx) as [H'|[H' _]].
    - apply HC. unfold JSMap.values. apply in_map_iff. exists (k, x). auto.
    - unfold JournalScreen.userWaypoints in H'.
      destruct u as [data|]; [|destruct H'].
      apply filter_In in H'. destruct H' as [Hm Hc]. split; [exact Hc|].
      apply in_map_iff in Hm. destruct Hm as (post & E & _).
      exists post. symmetry; exact E. }
  intros H. destruct (G JSMap.empty (fun x (F : In x []) => match F with end)
                        w H) as [Hc Hp].
  unfold JournalScreen.hasCoords in Hc. apply andb_true_iff in Hc.
  destruct Hc as [Hl Ho]. apply negb_true_iff in Hl, Ho. auto.
Qed.

Lemma journal_collection_has_coordinates_witness :
  let w := JournalScreen.toWaypoint Sample.topPair in
  JS.isZero (w_lat w) = false /\ JS.isZero (w_lon w) = false.
Proof.
  cbv zeta.
  destruct (journal_collection_has_coordinates
              [Some [Sample.nestedPair; Sample.topPair; Sample.halfPair]]
              (JournalScreen.toWaypoint Sample.topPair))
    as (Hl & Ho & _); [left; reflexivity | split; assumption].
Defined.

(** Of three posts, with coordinates at the top level, under
    [waypoint] only, and with a latitude alone, the journal keeps the
    first. *)
Example journal_collection_sample :
  JSMap.keys
    (JournalScreen.collect
       [Some [Sample.nestedPair; Sample.topPair; Sample.halfPair]])
  = ["p1"%string].
Proof. reflexivity. Qed.

(** ** The drawer: closing, collapsing, gestures and late answers *)

Lemma explore_complete_unselected net t s :
  ExploreScreen.selectedWaypoint s = None ->
  ExploreScreen.selectedWaypoint (ExploreScreen.complete net t s) = None.
Proof.
  intros H. destruct t as [|w id|w|w id|]; simpl; try exact H.
  - destruct (getPostById net id); exact H.
  - destruct (postId w); exact H.
  - destruct (getPostById net id); exact H.
  - reflexivity.
Qed.

Lemma explore_deliver_unselected net n s :
  ExploreScreen.selectedWaypoint s = None ->
  ExploreScreen.selectedWaypoint (ExploreScreen.deliver net n s) = None.
Proof.
  intros H. unfold ExploreScreen.deliver.
  destruct (nth_error _ n); [|exact H].
  apply explore_complete_unselected. exact H.
Qed.

(** Closing the drawer closes it for good: at once without the
    animation, at the end of the animation with it; whatever timers and
    fetches settle afterwards, in any order, the drawer stays closed
    until a waypoint is pressed again. *)
Theorem close_is_final net s (smooth : bool) (later : list nat) :
  let closed :=
    if smooth
    then ExploreScreen.deliver net (List.length (ExploreScreen.pending s))
           (ExploreScreen.handleCloseWaypointDetail true s)
    else ExploreScreen.handleCloseWaypointDetail false s in
  ExploreScreen.drawerState
    (fold_left (fun st n => ExploreScreen.deliver net n st) later closed)
  = ExploreScreen.Closed.
Proof.
  cbv zeta.
  assert (G : forall st,
             ExploreScreen.selectedWaypoint st = None ->
             ExploreScreen.selectedWaypoint
               (fold_left (fun st n => ExploreScreen.deliver net n st)
                  later st) = None).
  { induction later as [|n later IH]; intros st H; [exact H|].
    simpl. apply IH, explore_deliver_unselected, H. }
  unfold ExploreScreen.drawerState. rewrite G; [reflexivity|].
  destruct smooth; [|reflexivity].
  unfold ExploreScreen.handleCloseWaypointDetail.
  rewrite (explore_deliver_started net ExploreScreen.CloseAnimation
             (ExploreScreen.setIsExpanded false
                (ExploreScreen.setIsClosingAnimated true
                   (ExploreScreen.setFullEntryData None s)))
             (List.length (ExploreScreen.pending s)) eq_refl).
  reflexivity.
Qed.

(** Collapsing the expanded drawer shows the card of the same item and
    drops the detail; expanding again starts over, so the detail is
    fetched again. *)
Theorem collapse_discards_detail s w d :
  ExploreScreen.drawerState s = ExploreScreen.Expanded w d ->
  ExploreScreen.isClosingAnimated s = false ->
  let c := ExploreScreen.handleCollapseDetail s in
  ExploreScreen.drawerState c = ExploreScreen.Collapsed w /\
  ExploreScreen.fullEntryData c = None /\
  (JS.truthyStr (postId w) = true ->
   ExploreScreen.pending (ExploreScreen.handleExpandDetail c)
   = ExploreScreen.pending s ++ [ExploreScreen.ExpandSpring w]).
Proof.
  intros Hd Hc. cbv zeta. unfold ExploreScreen.drawerState in Hd.
  destruct (ExploreScreen.selectedWaypoint s) as [w'|] eqn:Hs;
    [|discriminate].
  destruct (ExploreScreen.shouldRenderDrawer s) eqn:Hr; [|discriminate].
  destruct (ExploreScreen.isLoadingExpanded s) eqn:Hl; [discriminate|].
  destruct (ExploreScreen.isExpanded s) eqn:He.
  - injection Hd as -> _.
    unfold ExploreScreen.drawerState, ExploreScreen.handleExpandDetail.
    simpl. rewrite Hs, Hr, Hc. repeat split.
    intros Ht. rewrite Ht. reflexivity.
  - destruct (negb _); discriminate.
Qed.

Lemma collapse_discards_detail_witness :
  let w := Sample.bare (JS.ofZ 45) (JS.ofZ 5) in
  ExploreScreen.drawerState
    (ExploreScreen.handleCollapseDetail
       (ExploreScreen.handleWaypointPress w true ExploreScreen.initial))
  = ExploreScreen.Collapsed w.
Proof.
  cbv zeta.
  refine (proj1 (collapse_discards_detail _
                   (Sample.bare (JS.ofZ 45) (JS.ofZ 5))
                   (Some (Preview (Sample.bare (JS.ofZ 45) (JS.ofZ 5))))
                   _ _)); reflexivity.
Defined.

Lemma nth_error_middle {A : Type} (l : list A) (x y : A) (r : list A) :
  nth_error (l ++ x :: y :: r) (List.length l + 1) = Some y.
Proof.
  induction l as [|z l IH]; simpl; [reflexivity | exact IH].
Qed.

(** The answer to a fetch is shown on whatever is selected when it
    arrives: press a waypoint in the list, then another on the map
    before the first fetch resolves, and the drawer expands on the
    second waypoint with the first one's entry. *)
Theorem late_answer_shows_on_new_selection net s a b id fullEntry :
  postId a = Some id -> JS.truthyStr (Some id) = true ->
  getPostById net id = Some fullEntry ->
  let pressedA := ExploreScreen.handleWaypointPress a true s in
  let pressedB := ExploreScreen.handleWaypointPress b false pressedA in
  let answered :=
    ExploreScreen.deliver net (List.length (ExploreScreen.pending s) + 1)
      pressedB in
  ExploreScreen.drawerState pressedA = ExploreScreen.Loading a /\
  ExploreScreen.drawerState pressedB = ExploreScreen.Collapsed b /\
  ExploreScreen.drawerState answered
  = ExploreScreen.Expanded b (Some (FullEntry fullEntry)).
Proof.
  intros Hid Ht Hnet. cbv zeta.
  unfold ExploreScreen.handleWaypointPress. rewrite Hid, Ht.
  repeat split.
  unfold ExploreScreen.deliver. simpl ExploreScreen.pending.
  rewrite <- !app_assoc. simpl app. rewrite nth_error_middle.
  cbn [ExploreScreen.complete]. rewrite Hnet. reflexivity.
Qed.

Lemma late_answer_shows_on_new_selection_witness :
  let a := Sample.entry "a" (JS.ofZ 10) (JS.ofZ 20) 5 in
  let net := mkNetwork (fun _ => Some Sample.topPair) (fun _ => None) in
  ExploreScreen.drawerState
    (ExploreScreen.deliver net 1
       (ExploreScreen.handleWaypointPress Sample.inside false
          (ExploreScreen.handleWaypointPress a true ExploreScreen.initial)))
  = ExploreScreen.Expanded Sample.inside (Some (FullEntry Sample.topPair)).
Proof.
  cbv zeta.
  refine (proj2 (proj2
    (late_answer_shows_on_new_selection
       (mkNetwork (fun _ => Some Sample.topPair) (fun _ => None))
       ExploreScreen.initial
       (Sample.entry "a" (JS.ofZ 10) (JS.ofZ 20) 5) Sample.inside
       "a"%string Sample.topPair _ _ _))); reflexivity.
Defined.

Lemma num_ltb_lt a b : JS.ltb a b = true <-> JS.lt a b.
Proof. unfold JS.ltb, JS.lt. apply Z.ltb_lt. Qed.

(** Gestures on the drawer of either screen.  A release faster than
    0.5 downwards, or more than 100 down, closes the drawer with the
    animation in every state.  While the detail is expanded, a gesture
    is taken only if it goes down and the content is scrolled to its
    top, and a release closes the drawer or leaves it as it is: it
    starts no expansion and no fetch. *)
Theorem drawer_gestures scrollOffsetY dx dy vy :
  (forall s,
      (JS.gtb vy (JS.Num 5 1) = true \/ JS.gtb dy (JS.ofZ 100) = true ->
       ExploreScreen.onPanResponderRelease vy dy s
       = ExploreScreen.handleCloseWaypointDetail true s) /\
      (ExploreScreen.isExpanded s = true ->
       (ExploreScreen.onMoveShouldSetPanResponder scrollOffsetY dx dy s
        = true -> JS.lt JS.zero dy /\ JS.le scrollOffsetY JS.zero) /\
       (ExploreScreen.onPanResponderRelease vy dy s
        = ExploreScreen.handleCloseWaypointDetail true s \/
        ExploreScreen.onPanResponderRelease vy dy s = s \/
        ExploreScreen.onPanResponderRelease vy dy s
        = ExploreScreen.setTranslateY 0 s)))
  /\
  (forall s,
      (JS.gtb vy (JS.Num 5 1) = true \/ JS.gtb dy (JS.ofZ 100) = true ->
       JournalScreen.onPanResponderRelease vy dy s
       = JournalScreen.handleCloseEntryDetail true s) /\
      (JournalScreen.isExpanded s = true ->
       (JournalScreen.onMoveShouldSetPanResponder scrollOffsetY dx dy s
        = true -> JS.lt JS.zero dy /\ JS.le scrollOffsetY JS.zero) /\
       (JournalScreen.onPanResponderRelease vy dy s
        = JournalScreen.handleCloseEntryDetail true s \/
        JournalScreen.onPanResponderRelease vy dy s = s \/
        JournalScreen.onPanResponderRelease vy dy s
        = JournalScreen.setTranslateY 0 s))).
Proof.
  split; intros s; split.
  - unfold ExploreScreen.onPanResponderRelease.
    intros [H|H]; rewrite H; [|rewrite orb_true_r]; reflexivity.
  - intros He. split.
    + unfold ExploreScreen.onMoveShouldSetPanResponder. rewrite He.
      destruct (_ && _); [|discriminate].
      intros H. apply andb_true_iff in H. destruct H as [H1 H2].
      split; [apply num_ltb_lt, H1 | apply num_leb_le, H2].
    + unfold ExploreScreen.onPanResponderRelease. rewrite He. simpl.
      destruct (_ || _); [left; reflexivity|].
      destruct (_ || _); [right; left | right; right]; reflexivity.
  - unfold JournalScreen.onPanResponderRelease.
    intros [H|H]; rewrite H; [|rewrite orb_true_r]; reflexivity.
  - intros He. split.
    + unfold JournalScreen.onMoveShouldSetPanResponder. rewrite He.
      destruct (_ && _); [|discriminate].
      intros H. apply andb_true_iff in H. destruct H as [H1 H2].
      split; [apply num_ltb_lt, H1 | apply num_leb_le, H2].
    + unfold JournalScreen.onPanResponderRelease. rewrite He. simpl.
      destruct (_ || _); [left; reflexivity|].
      destruct (_ || _); [right; left | right; right]; reflexivity.
Qed.

Lemma drawer_gestures_witness :
  let s :=
    ExploreScreen.handleWaypointPress Sample.inside true
      ExploreScreen.initial in
  ExploreScreen.onPanResponderRelease (JS.Num 9 1) (JS.ofZ (-120)) s
  = ExploreScreen.handleCloseWaypointDetail true s.
Proof.
  cbv zeta.
  apply (proj1 (proj1 (drawer_gestures JS.zero JS.zero (JS.ofZ (-120))
                         (JS.Num 9 1)) _)).
  left; reflexivity.
Defined.

Lemma sameId_refl x : JournalScreen.sameId x x = true.
Proof. destruct x; simpl; [apply String.eqb_refl | reflexivity]. Qed.

(** Two taps on the card of an entry that is not selected: the first
    selects it and centres the map on it, the second opens the drawer
    in its loading state and asks for the full entry; when the fetch
    settles the drawer is expanded on the entry, with the full entry or,
    after a failure, with the card's own data. *)
Theorem two_taps_open_entry answer mapView s entry post :
  w_post entry = Some post ->
  JournalScreen.sameId
    (match JournalScreen.selectedEntry s with
     | Some sel => postId sel
     | None => None
     end) (p_id post) = false ->
  let first := JournalScreen.handleEntryCardPress mapView entry s in
  let second := JournalScreen.handleEntryCardPress mapView entry (fst first) in
  let settled := JournalScreen.cardFetchSettled answer entry (fst second) in
  snd first = JournalScreen.centerOnEntry mapView entry /\
  JournalScreen.selectedEntry (fst first) = Some entry /\
  JournalScreen.shouldRenderDrawer (fst first)
  = JournalScreen.shouldRenderDrawer s /\
  snd second = JournalScreen.FetchLater entry /\
  JournalScreen.drawerState (fst second) = JournalScreen.Loading entry /\
  JournalScreen.drawerState settled
  = JournalScreen.Expanded entry
      (Some (match answer with
             | Some fullEntry => FullEntry fullEntry
             | None => Preview entry
             end)).
Proof.
  intros Hp Hn. cbv zeta.
  assert (E1 : JournalScreen.handleEntryCardPress mapView entry s
               = (JournalScreen.setSelectedEntry (Some entry) s,
                  JournalScreen.centerOnEntry mapView entry)).
  { unfold JournalScreen.handleEntryCardPress. rewrite Hp. cbv zeta.
    rewrite Hn. reflexivity. }
  rewrite E1. cbn [fst snd].
  assert (E2 : JournalScreen.handleEntryCardPress mapView entry
                 (JournalScreen.setSelectedEntry (Some entry) s)
               = (JournalScreen.setTranslateY 0
                    (JournalScreen.setDrawerHeight 90
                       (JournalScreen.setFullEntryData None
                          (JournalScreen.setIsLoadingExpanded true
                             (JournalScreen.setIsDrawerVisible true
                                (JournalScreen.setShouldRenderDrawer true
                                   (JournalScreen.setSelectedEntry
                                      (Some entry) s)))))),
                  JournalScreen.FetchLater entry)).
  { unfold JournalScreen.handleEntryCardPress. rewrite Hp. cbv zeta.
    simpl JournalScreen.selectedEntry. unfold postId at 1. rewrite Hp.
    rewrite sameId_refl. reflexivity. }
  rewrite E2. cbn [fst snd]. repeat split.
  destruct answer; reflexivity.
Qed.

Lemma two_taps_open_entry_witness :
  let entry := Sample.entry "a" (JS.ofZ 10) (JS.ofZ 20) 5 in
  let first :=
    JournalScreen.handleEntryCardPress true entry JournalScreen.initial in
  let second := JournalScreen.handleEntryCardPress true entry (fst first) in
  JournalScreen.drawerState (fst second) = JournalScreen.Loading entry.
Proof.
  cbv zeta.
  refine (proj1 (proj2 (proj2 (proj2 (proj2
    (two_taps_open_entry None true JournalScreen.initial
       (Sample.entry "a" (JS.ofZ 10) (JS.ofZ 20) 5) _ _ _))))));
    reflexivity.
Defined.

(** A waypoint without a post has no detail view: a tap on its card
    when it is already selected changes nothing and asks for nothing,
    and expanding the drawer on it does nothing. *)
Theorem bare_waypoint_has_no_detail mapView s entry :
  w_post entry = None ->
  JournalScreen.selectedEntry s = Some entry ->
  JournalScreen.handleEntryCardPress mapView entry s
  = (s, JournalScreen.NoEffect) /\
  JournalScreen.handleExpandDetail s = s.
Proof.
  intros Hp Hs. unfold JournalScreen.handleEntryCardPress,
    JournalScreen.handleExpandDetail, postId.
  rewrite Hp, Hs, Hp, sameId_refl. split; reflexivity.
Qed.

Lemma bare_waypoint_has_no_detail_witness :
  let s :=
    JournalScreen.handleEntryPress Sample.inside JournalScreen.initial in
  JournalScreen.handleEntryCardPress true Sample.inside s
  = (s, JournalScreen.NoEffect).
Proof.
  cbv zeta.
  apply (bare_waypoint_has_no_detail true
           (JournalScreen.handleEntryPress Sample.inside
              JournalScreen.initial) Sample.inside); reflexivity.
Defined.

(** ** The bookmarks screen *)

(** A press opens the expanded view on the pressed waypoint.  When its
    fetch succeeds the view shows the same waypoint with the full entry
    as its post; when it fails the view keeps what it showed. *)
Theorem bookmark_press_outcome net s w :
  let pressed := BookmarksView.handleWaypointPress w s in
  let settled :=
    BookmarksView.deliver net (List.length (BookmarksView.pending s))
      pressed in
  BookmarksView.expandedView pressed = Some w /\
  BookmarksView.expandedView settled =
  match postId w with
  | Some id =>
      if JS.truthyStr (Some id) then
        match getPostById net id with
        | Some fullEntry => Some (BookmarksView.withPost w fullEntry)
        | None => Some w
        end
      else Some w
  | None => Some w
  end.
Proof.
  cbv zeta. split; [reflexivity|].
  unfold BookmarksView.handleWaypointPress, BookmarksView.deliver.
  cbn [BookmarksView.pending].
  destruct (postId w) as [id|] eqn:Hid; cbn [JS.truthyStr].
  - destruct (negb (String.eqb id EmptyString)) eqn:Ht.
    + rewrite nth_error_snoc, removeAt_snoc.
      unfold BookmarksView.settle. rewrite Hid.
      destruct (getPostById net id); reflexivity.
    + rewrite (proj2 (nth_error_None _ _)) by apply Nat.le_refl.
      reflexivity.
  - rewrite (proj2 (nth_error_None _ _)) by apply Nat.le_refl.
    reflexivity.
Qed.

(** The answer to a press replaces whatever is selected when it
    arrives: press one bookmark, close the view, press another, and
    when the first fetch then succeeds the view shows the first
    bookmark. *)
Theorem bookmark_late_answer net s a b id fullEntry :
  postId a = Some id -> JS.truthyStr (Some id) = true ->
  getPostById net id = Some fullEntry ->
  let pressedB :=
    BookmarksView.handleWaypointPress b
      (BookmarksView.handleCloseExpandedView
         (BookmarksView.handleWaypointPress a s)) in
  BookmarksView.expandedView pressedB = Some b /\
  BookmarksView.expandedView
    (BookmarksView.deliver net (List.length (BookmarksView.pending s))
       pressedB)
  = Some (BookmarksView.withPost a fullEntry).
Proof.
  intros Hid Ht Hnet. cbv zeta. split; [reflexivity|].
  unfold BookmarksView.handleWaypointPress, BookmarksView.deliver,
    BookmarksView.handleCloseExpandedView.
  cbn [BookmarksView.pending]. rewrite Hid, Ht.
  assert (E : forall r,
             nth_error ((BookmarksView.pending s ++ [a]) ++ r)
               (List.length (BookmarksView.pending s)) = Some a).
  { intros r. rewrite <- app_assoc. simpl.
    induction (BookmarksView.pending s); [reflexivity | assumption]. }
  destruct (JS.truthyStr (postId b)).
  - rewrite E. unfold BookmarksView.settle. rewrite Hid, Hnet. reflexivity.
  - rewrite nth_error_snoc. unfold BookmarksView.settle.
    rewrite Hid, Hnet. reflexivity.
Qed.

Lemma bookmark_late_answer_witness :
  let a := BookmarksScreen.toWaypoint Sample.nestedPair in
  let b := BookmarksScreen.toWaypoint Sample.halfPair in
  let net := mkNetwork (fun _ => Some Sample.topPair) (fun _ => None) in
  BookmarksView.expandedView
    (BookmarksView.deliver net 0
       (BookmarksView.handleWaypointPress b
          (BookmarksView.handleCloseExpandedView
             (BookmarksView.handleWaypointPress a BookmarksView.initial))))
  = Some (BookmarksView.withPost a Sample.topPair).
Proof.
  cbv zeta.
  refine (proj2
    (bookmark_late_answer
       (mkNetwork (fun _ => Some Sample.topPair) (fun _ => None))
       BookmarksView.initial
       (BookmarksScreen.toWaypoint Sample.nestedPair)
       (BookmarksScreen.toWaypoint Sample.halfPair)
       "b2"%string Sample.topPair _ _ _)); reflexivity.
Defined.

(** ** Numbers on the map *)

Section NumOrder.
Implicit Types (a b c : JS.num).

Lemma pow10_pos n : 0 < JS.pow10 n.
Proof. unfold JS.pow10. apply Z.pow_pos_nonneg; lia. Qed.
















End NumOrder.



Lemma getCurrentBounds_ordered_witness :
  let b :=
    mkBounds (mkLatLon (JS.ofZ 50) (JS.ofZ 10))
             (mkLatLon (JS.ofZ 40) (JS.ofZ 0)) in
  JS.leb (ll_lat (b_sw b)) (ll_lat (b_ne b)) = true /\
  JS.leb (ll_lon (b_sw b)) (ll_lon (b_ne b)) = true.
Proof.
  cbv zeta.
  apply (getCurrentBounds_ordered
           (Some ((JS.ofZ 10, JS.ofZ 50), (JS.ofZ 0, JS.ofZ 40)))).
  reflexivity.
Defined.

(** ** Countries visited *)

Section SetFacts.

Lemma JSSet_has_In k s : JSSet.has k s = true <-> In k s.
Proof.
  unfold JSSet.has. rewrite existsb_exists. split.
  - intros (x & Hx & E). apply String.eqb_eq in E. subst. exact Hx.
  - intros H. exists k. split; [exact H | apply String.eqb_refl].
Qed.

Lemma JSSet_add_In k s x : In x (JSSet.add k s) <-> x = k \/ In x s.
Proof.
  unfold JSSet.add. destruct (JSSet.has k s) eqn:E.
  - apply JSSet_has_In in E. split; [auto|]. intros [->|H]; assumption.
  - rewrite in_app_iff. simpl. split.
    + intros [H|[<-|[]]]; auto.
    + intros [->|H]; auto.
Qed.

Lemma JSSet_add_NoDup k s : NoDup s -> NoDup (JSSet.add k s).
Proof.
  intros N. unfold JSSet.add. destruct (JSSet.has k s) eqn:E; [exact N|].
  assert (Hk : ~ In k s).
  { intros H. apply JSSet_has_In in H. congruence. }
  clear E. induction s as [|x s IH]; simpl.
  - constructor; [intros [] | constructor].
  - inversion N; subst. constructor.
    + rewrite in_app_iff. intros [H|[<-|[]]]; [contradiction|].
      apply Hk. left; reflexivity.
    + apply IH; [assumption|]. intros H. apply Hk. right; exact H.
Qed.

Lemma JSSet_add_size k s :
  (JSSet.size (JSSet.add k s) <= S (JSSet.size s))%nat.
Proof.
  unfold JSSet.add, JSSet.size. destruct (JSSet.has k s); [lia|].
  rewrite length_app. simpl. lia.
Qed.

End SetFacts.

(** The number of countries visited is the number of distinct
    five-degree blocks among the waypoints that have both coordinates
    other than zero: a block is counted once however many waypoints
    fall in it, waypoints on the equator or on the prime meridian are
    not counted, and the count is at most the number of waypoints. *)
Theorem countries_are_distinct_blocks waypoints :
  let blocks := JournalScreen.uniqueCoordinates waypoints in
  JournalScreen.calculateCountriesVisited waypoints = List.length blocks /\
  NoDup blocks /\
  (forall k, In k blocks <->
             exists w, In w waypoints /\
                       JS.isZero (w_lat w) = false /\
                       JS.isZero (w_lon w) = false /\
                       JournalScreen.coordBlock w = k) /\
  (List.length blocks <= List.length waypoints)%nat.
Proof.
  cbv zeta. unfold JournalScreen.calculateCountriesVisited, JSSet.size,
    JournalScreen.uniqueCoordinates.
  split; [reflexivity|].
  set (f := fun (set : JSSet.t) (waypoint : Waypoint) =>
              if JS.truthy (w_lat waypoint) && JS.truthy (w_lon waypoint)
              then JSSet.add (JournalScreen.coordBlock waypoint) set
              else set).
  assert (G : forall ws (s0 : JSSet.t),
             NoDup s0 ->
             NoDup (fold_left f ws s0) /\
             (forall k, In k (fold_left f ws s0) <->
                        In k s0 \/
                        exists w, In w ws /\
                                  JS.isZero (w_lat w) = false /\
                                  JS.isZero (w_lon w) = false /\
                                  JournalScreen.coordBlock w = k) /\
             (List.length (fold_left f ws s0)
              <= List.length s0 + List.length ws)%nat).
  { induction ws as [|w ws IH]; intros s0 N; simpl.
    - repeat split; auto; [|lia]. intros [H|(w & [] & _)]. exact H.
    - assert (N' : NoDup (f s0 w)).
      { unfold f. destruct (_ && _); [apply JSSet_add_NoDup, N | exact N]. }
      destruct (IH (f s0 w) N') as (D & I & L). repeat split.
      + exact D.
      + intros H. apply I in H. destruct H as [H|(x & Hx & Hr)].
        * unfold f in H. unfold JS.truthy in H.
          destruct (JS.isZero (w_lat w)) eqn:Zl;
            destruct (JS.isZero (w_lon w)) eqn:Zo; simpl in H; auto.
          apply JSSet_add_In in H. destruct H as [->|H]; auto.
          right. exists w. auto.
        * right. exists x. auto.
      + intros H. apply I. destruct H as [H|(x & [<-|Hx] & Zl & Zo & E)].
        * left. unfold f. destruct (_ && _); [|exact H].
          apply JSSet_add_In. right; exact H.
        * left. unfold f, JS.truthy. rewrite Zl, Zo. simpl.
          apply JSSet_add_In. left. symmetry; exact E.
        * right. exists x. auto.
      + eapply Nat.le_trans; [exact L|].
        assert (List.length (f s0 w) <= S (List.length s0))%nat.
        { unfold f. destruct (_ && _); [apply JSSet_add_size | lia]. }
        lia. }
  destruct (G waypoints JSSet.empty (NoDup_nil _)) as (D & I & L).
  repeat split.
  - exact D.
  - intros H. apply I in H. destruct H as [[]|H]. exact H.
  - intros H. apply I. right; exact H.
  - exact L.
Qed.

(** Paris and London fall in the same block and count as one country;
    a waypoint on the equator counts as none. *)
Example countries_sample :
  JournalScreen.calculateCountriesVisited
    [Sample.bare (JS.Num 488 1) (JS.Num 23 1);
     Sample.bare (JS.Num 515 1) (JS.Num (-1) 1);
     Sample.bare (JS.ofZ 0) (JS.ofZ 30)] = 1%nat /\
  JournalScreen.coordBlock (Sample.bare (JS.Num 488 1) (JS.Num 23 1))
  = "50,0"%string.
Proof. split; reflexivity. Qed.

(** ** Continents *)

(** [getContinent] answers Antarctica exactly for the latitudes south
    of -60, whatever the longitude. *)
Theorem getContinent_antarctica lat lon :
  ExploreScreen.getContinent lat lon = "Antarctica"%string <->
  JS.lt lat (JS.ofZ (-60)).
Proof.
  rewrite <- num_ltb_lt. unfold ExploreScreen.getContinent.
  pose proof (pow10_pos (JS.scale lat)) as P.
  assert (W : forall lo hi, -56 <= lo ->
              JS.ltb lat (JS.ofZ (-60)) = true ->
              ExploreScreen.within lo hi lat = false).
  { intros lo hi Hlo H. unfold ExploreScreen.within, JS.geb, JS.leb.
    unfold JS.ltb in H. unfold JS.ofZ in *. cbn [JS.mant JS.scale] in *.
    change (JS.pow10 0) with 1 in *. apply Z.ltb_lt in H.
    apply andb_false_iff. left. apply Z.leb_gt.
    assert (0 <= (lo + 56) * JS.pow10 (JS.scale lat))
      by (apply Z.mul_nonneg_nonneg; lia).
    lia. }
  destruct (JS.ltb lat (JS.ofZ (-60))) eqn:E.
  - rewrite !W by (reflexivity || lia). simpl. split; reflexivity.
  - split; [|discriminate].
    repeat match goal with
           | |- context [if ?c then _ else _] => destruct c
           end; discriminate.
Qed.

(** ** Journey data that arrives late *)

(** When the tab has left entries and journeys before the trip was
    loaded, the late answer is stored but not shown: the list goes on
    showing the entries in view, and the map the waypoints of the map
    query. *)
Theorem late_journey_is_not_shown net journey tab s mapWaypoints :
  tab <> JournalScreen.entries -> tab <> JournalScreen.journeys ->
  let switched :=
    JournalScreen.render
      (JournalScreen.handleTabChange tab
         (JournalScreen.render (JournalScreen.enterJourneyMode journey s))) in
  let resolved :=
    JournalScreen.deliver net (List.length (JournalScreen.pending s))
      switched in
  JournalScreen.journeyWaypoints resolved
  = JournalScreen.sortedWaypoints net (getTripById net (t_id journey)) /\
  JournalScreen.shownEntries resolved = JournalScreen.visibleEntries s /\
  MapViewMarkers.journalMarkers mapWaypoints resolved
  = filter MapViewMarkers.renderable
      (match mapWaypoints with Some l => l | None => [] end).
Proof.
  intros N1 N2. cbv zeta.
  assert (E :
    JournalScreen.render
      (JournalScreen.handleTabChange tab
         (JournalScreen.render (JournalScreen.enterJourneyMode journey s)))
    = JournalScreen.start (JournalScreen.JourneyLoad journey)
        (JournalScreen.exitJourneyMode (JournalScreen.setActiveTab tab s))).
  { destruct tab; try contradiction; reflexivity. }
  rewrite E.
  rewrite (journal_deliver_started net (JournalScreen.JourneyLoad journey)
             (JournalScreen.exitJourneyMode
                (JournalScreen.setActiveTab tab s))
             (List.length (JournalScreen.pending s)) eq_refl).
  cbn [JournalScreen.complete].
  unfold JournalScreen.render, JournalScreen.autoExit,
    JournalScreen.journeyLoaded.
  destruct (getTripById net (t_id journey)); repeat split.
Qed.

Lemma late_journey_is_not_shown_witness :
  let switched :=
    JournalScreen.render
      (JournalScreen.handleTabChange JournalScreen.followers
         (JournalScreen.render
            (JournalScreen.enterJourneyMode Sample.trip1
               (JournalScreen.setVisibleEntries [Sample.inside]
                  JournalScreen.initial)))) in
  JournalScreen.shownEntries
    (JournalScreen.deliver Sample.tripServer 0 switched)
  = [Sample.inside].
Proof.
  cbv zeta.
  refine (proj1 (proj2
    (late_journey_is_not_shown Sample.tripServer Sample.trip1
       JournalScreen.followers
       (JournalScreen.setVisibleEntries [Sample.inside]
          JournalScreen.initial) None _ _))); discriminate.
Defined.

(** ** Closing the journal drawer *)

Lemma journal_deliver_unselected net n s :
  JournalScreen.selectedEntry s = None ->
  JournalScreen.selectedEntry (JournalScreen.deliver net n s) = None.
Proof.
  intros H. unfold JournalScreen.deliver.
  destruct (nth_error _ n) as [t|]; [|exact H].
  unfold JournalScreen.render, JournalScreen.autoExit.
  assert (G : JournalScreen.selectedEntry
                (JournalScreen.complete net t
                   (JournalScreen.setPending
                      (removeAt n (JournalScreen.pending s)) s)) = None).
  { destruct t as [j|w|w id]; simpl.
    - unfold JournalScreen.journeyLoaded.
      destruct (getTripById net (t_id j)); exact H.
    - destruct (postId w); exact H.
    - destruct (getPostById net id); exact H. }
  destruct (_ && _ && _); [|exact G]. exact G.
Qed.

(** The journal drawer closes for good as well: at once without the
    animation, when the animation ends with it, and no trip or entry
    that arrives afterwards opens it again. *)
Theorem journal_close_is_final net s (smooth : bool) (later : list nat) :
  let closed :=
    if smooth
    then JournalScreen.closeAnimationDone
           (JournalScreen.handleCloseEntryDetail true s)
    else JournalScreen.handleCloseEntryDetail false s in
  JournalScreen.fullEntryData closed = None /\
  JournalScreen.drawerState
    (fold_left (fun st n => JournalScreen.deliver net n st) later closed)
  = JournalScreen.Closed.
Proof.
  cbv zeta. split; [destruct smooth; reflexivity|].
  assert (G : forall st,
             JournalScreen.selectedEntry st = None ->
             JournalScreen.selectedEntry
               (fold_left (fun st n => JournalScreen.deliver net n st)
                  later st) = None).
  { induction later as [|n later IH]; intros st H; [exact H|].
    simpl. apply IH, journal_deliver_unselected, H. }
  unfold JournalScreen.drawerState. rewrite G; [reflexivity|].
  destruct smooth; reflexivity.
Qed.

Lemma getContinent_antarctica_witness :
  ExploreScreen.getContinent (JS.Num (-755) 1) (JS.ofZ 20)
  = "Antarctica"%string.
Proof.
  apply (proj2 (getContinent_antarctica (JS.Num (-755) 1) (JS.ofZ 20))).
  reflexivity.
Defined.

Lemma countries_are_distinct_blocks_witness :
  In "50,0"%string
     (JournalScreen.uniqueCoordinates
        [Sample.bare (JS.Num 488 1) (JS.Num 23 1);
         Sample.bare (JS.Num 515 1) (JS.Num (-1) 1)]).
Proof.
  apply (proj2 (proj1 (proj2 (proj2
    (countries_are_distinct_blocks
       [Sample.bare (JS.Num 488 1) (JS.Num 23 1);
        Sample.bare (JS.Num 515 1) (JS.Num (-1) 1)]))) "50,0"%string)).
  exists (Sample.bare (JS.Num 515 1) (JS.Num (-1) 1)).
  repeat split. right; left; reflexivity.
Defined.
